(** * BoundingRect: axis-aligned bounding rectangles

    A shallow embedding of [src/core/BoundingRect.ts].

    JavaScript numbers are modelled by exact rationals [Q]: every finite
    double is a rational, and the arithmetic of the source ([+], [-], [*],
    [/], [Math.min], [Math.max], [Math.abs], [<], [<=], [>=]) is taken
    exactly, without rounding.  [NaN] and the infinities are outside the
    model, except for the literal [Infinity] that initialises [dMin] in
    [intersect], which has its own constructor; a division by zero, which
    gives [Infinity] or [NaN] in the source, is outside the model too, and
    the facts about [calculateTransform] assume divisors that are not zero.
    Equalities between computed numbers are stated with [==] ([Qeq]).
    What is proved of this model is proved of the source in exact
    arithmetic; where rounding makes the source differ, the module [Double]
    transcribes the method with binary64 numbers and the difference is
    computed there.

    Objects that the source mutates in place ([BoundingRect] instances) live
    in a store indexed by references, so that [target] and [source], or
    [this] and [other], may be one and the same object.  The module-level
    scratch points [lt], [rb], [lb], [rt], [minTv] and [maxTv] are part of
    the state. *)

From Stdlib Require Import QArith Qminmax Qabs Lqa Bool PeanoNat.
From Stdlib Require Import Floats.

(** Decimal literals of doubles denote the nearest binary64 number, as in
    the source. *)
Set Warnings "-inexact-float".

Local Open Scope Q_scope.

(** ** Numbers *)

Module Num.

(** [a < b], [a <= b], [a > b], [a >= b] of the source, as booleans. *)
Definition ltb (a b : Q) : bool := negb (Qle_bool b a).
Definition leb (a b : Q) : bool := Qle_bool a b.
Definition gtb (a b : Q) : bool := ltb b a.
Definition geb (a b : Q) : bool := leb b a.

(** A number that may be the literal [Infinity]. *)
Inductive ext : Type :=
| Fin (q : Q)
| Infinity.

(** [a < b] where [b] may be [Infinity]. *)
Definition ltb_ext (a : Q) (b : ext) : bool :=
  match b with
  | Fin q => ltb a q
  | Infinity => true
  end.

(** [Math.min] and [Math.max], with two and with four arguments. *)
Definition mathMin (a b : Q) : Q := Qmin a b.
Definition mathMax (a b : Q) : Q := Qmax a b.
Definition mathMin4 (a b c d : Q) : Q := Qmin (Qmin (Qmin a b) c) d.
Definition mathMax4 (a b c d : Q) : Q := Qmax (Qmax (Qmax a b) c) d.

(** The literal [1e-5]. *)
Definition eps : Q := 1 # 100000.

End Num.

(** ** The matrix collaborator ([./matrix]) *)

Module matrix.

(** [MatrixArray]: the six coefficients [[a, b, c, d, tx, ty]], read by the
    source as [m[0]] .. [m[5]]. *)
Record MatrixArray : Type := mk
  { m0 : Q; m1 : Q; m2 : Q; m3 : Q; m4 : Q; m5 : Q }.

(** Modelled from the spec: [matrix.create] is missing from the sources;
    the spec says "[create()] yields identity". *)
Definition create : MatrixArray := mk 1 0 0 1 0 0.

(** Modelled from the spec: [matrix.translate] is missing from the sources;
    the spec says that a matrix represents [x' = a*x + c*y + tx],
    [y' = b*x + d*y + ty] and that "[translate]/[scale] post-compose":
    the result maps a point through [a] first and then moves it by [v]. *)
Definition translate (a : MatrixArray) (v : Q * Q) : MatrixArray :=
  mk (m0 a) (m1 a) (m2 a) (m3 a) (m4 a + fst v) (m5 a + snd v).

(** Modelled from the spec: [matrix.scale] is missing from the sources;
    as for [translate], the result maps a point through [a] first and then
    scales it by [v]. *)
Definition scale (a : MatrixArray) (v : Q * Q) : MatrixArray :=
  mk (m0 a * fst v) (m1 a * snd v) (m2 a * fst v) (m3 a * snd v)
     (m4 a * fst v) (m5 a * snd v).

End matrix.

(** ** The point collaborator ([./Point]) *)

Module Point.

Record Point : Type := mk { x : Q; y : Q }.

(** Modelled from the spec: [Point.set(p, x, y)] is missing from the
    sources; it is the "static [set]" helper that overwrites both
    coordinates of [p]. *)
Definition set (p : Point) (x0 y0 : Q) : Point := mk x0 y0.

(** Modelled from the spec: [Point.copy(dst, src)] is missing from the
    sources; it is the "static [copy]" helper that overwrites [dst] with
    the coordinates of [src]. *)
Definition copy (dst src : Point) : Point := mk (x src) (y src).

(** Modelled from the spec: [Point.prototype.transform] is missing from
    the sources; the spec says that a matrix [[a, b, c, d, tx, ty]]
    represents [x' = a*x + c*y + tx], [y' = b*x + d*y + ty]. *)
Definition transform (p : Point) (m : matrix.MatrixArray) : Point :=
  mk (matrix.m0 m * x p + matrix.m2 m * y p + matrix.m4 m)
     (matrix.m1 m * x p + matrix.m3 m * y p + matrix.m5 m).

Definition same (p q : Point) : Prop := x p == x q /\ y p == y q.

End Point.

(** ** BoundingRect *)

Module BoundingRect.

Import Num.

(** The four fields of a [BoundingRect]; a [RectLike] has the same
    fields and none of the methods. *)
Record BoundingRect : Type := mk
  { x : Q; y : Q; width : Q; height : Q }.

Definition RectLike : Type := BoundingRect.

Definition with_x (v : Q) (r : BoundingRect) : BoundingRect :=
  mk v (y r) (width r) (height r).
Definition with_y (v : Q) (r : BoundingRect) : BoundingRect :=
  mk (x r) v (width r) (height r).
Definition with_width (v : Q) (r : BoundingRect) : BoundingRect :=
  mk (x r) (y r) v (height r).
Definition with_height (v : Q) (r : BoundingRect) : BoundingRect :=
  mk (x r) (y r) (width r) v.

(** Field-wise equality of numbers. *)
Definition same (r s : BoundingRect) : Prop :=
  x r == x s /\ y r == y s /\ width r == width s /\ height r == height s.

(** The invariant of the data model. *)
Definition invariant (r : BoundingRect) : Prop :=
  0 <= width r /\ 0 <= height r.

(** The closed box spanned by the corners [(x0, y0)] and
    [(x0 + w, y0 + h)], whatever the signs of [w] and [h]. *)
Definition in_box (x0 y0 w h px py : Q) : Prop :=
  (mathMin x0 (x0 + w) <= px <= mathMax x0 (x0 + w)) /\
  (mathMin y0 (y0 + h) <= py <= mathMax y0 (y0 + h)).

(** The point set that a rectangle denotes: [[x, x+width] * [y, y+height]]. *)
Definition in_rect (r : BoundingRect) (px py : Q) : Prop :=
  (x r <= px <= x r + width r) /\ (y r <= py <= y r + height r).

(** A point as an argument of [in_rect]. *)
Definition holds (r : BoundingRect) (p : Point.Point) : Prop :=
  in_rect r (Point.x p) (Point.y p).

(** *** The store of rectangle objects *)

Definition loc : Type := nat.
Definition Store : Type := loc -> BoundingRect.

Definition upd (h : Store) (l : loc) (r : BoundingRect) : Store :=
  fun l' => if Nat.eqb l' l then r else h l'.

(** [l.x = v], [l.y = v], [l.width = v], [l.height = v]. *)
Definition set_x (l : loc) (v : Q) (h : Store) : Store :=
  upd h l (with_x v (h l)).
Definition set_y (l : loc) (v : Q) (h : Store) : Store :=
  upd h l (with_y v (h l)).
Definition set_width (l : loc) (v : Q) (h : Store) : Store :=
  upd h l (with_width v (h l)).
Definition set_height (l : loc) (v : Q) (h : Store) : Store :=
  upd h l (with_height v (h l)).

(** The state: the store and the module-level scratch points. *)
Record State : Type := mkState
  { heap : Store;
    lt : Point.Point; rb : Point.Point; lb : Point.Point; rt : Point.Point;
    minTv : Point.Point; maxTv : Point.Point }.

Definition with_heap (h : Store) (st : State) : State :=
  mkState h (lt st) (rb st) (lb st) (rt st) (minTv st) (maxTv st).

(** *** constructor, create, clone, plain *)

Definition constructor (x0 y0 width0 height0 : Q) : BoundingRect :=
  let '(x0, width0) :=
    if ltb width0 0 then (x0 + width0, - width0) else (x0, width0) in
  let '(y0, height0) :=
    if ltb height0 0 then (y0 + height0, - height0) else (y0, height0) in
  mk x0 y0 width0 height0.

Definition create (rect : RectLike) : BoundingRect :=
  constructor (x rect) (y rect) (width rect) (height rect).

Definition clone (this : loc) (h : Store) : BoundingRect :=
  constructor (x (h this)) (y (h this)) (width (h this)) (height (h this)).

Definition plain (this : loc) (h : Store) : RectLike :=
  mk (x (h this)) (y (h this)) (width (h this)) (height (h this)).

(** *** union *)

Definition union (this other : loc) (h : Store) : Store :=
  let x0 := mathMin (x (h other)) (x (h this)) in
  let y0 := mathMin (y (h other)) (y (h this)) in
  let h := set_width this
             (mathMax (x (h other) + width (h other))
                      (x (h this) + width (h this)) - x0) h in
  let h := set_height this
             (mathMax (y (h other) + height (h other))
                      (y (h this) + height (h this)) - y0) h in
  let h := set_x this x0 h in
  let h := set_y this y0 h in
  h.

(** *** copy *)

Definition copy (this other : loc) (h : Store) : Store :=
  let h := set_x this (x (h other)) h in
  let h := set_y this (y (h other)) h in
  let h := set_width this (width (h other)) h in
  let h := set_height this (height (h other)) h in
  h.

(** *** calculateTransform *)

Definition calculateTransform (this : loc) (b : RectLike) (h : Store)
  : matrix.MatrixArray :=
  let a := h this in
  let sx := width b / width a in
  let sy := height b / height a in
  let m := matrix.create in
  let m := matrix.translate m (- x a, - y a) in
  let m := matrix.scale m (sx, sy) in
  let m := matrix.translate m (x b, y b) in
  m.

(** *** static applyTransform *)

(** The fast path, taken when there is no rotation in the matrix. *)
Definition applyTransform_fast (target source : loc)
    (m : matrix.MatrixArray) (st : State) : State :=
  let h := heap st in
  let sx := matrix.m0 m in
  let sy := matrix.m3 m in
  let tx := matrix.m4 m in
  let ty := matrix.m5 m in
  let h := set_x target (x (h source) * sx + tx) h in
  let h := set_y target (y (h source) * sy + ty) h in
  let h := set_width target (width (h source) * sx) h in
  let h := set_height target (height (h source) * sy) h in
  with_heap h st.

(** The general path: the box of the four transformed corners. *)
Definition applyTransform_general (target source : loc)
    (m : matrix.MatrixArray) (st : State) : State :=
  let h := heap st in
  let lb := Point.mk (x (h source)) (Point.y (lb st)) in
  let lt := Point.mk (x (h source)) (Point.y (lt st)) in
  let rt := Point.mk (Point.x (rt st)) (y (h source)) in
  let lt := Point.mk (Point.x lt) (y (h source)) in
  let rt := Point.mk (x (h source) + width (h source)) (Point.y rt) in
  let rb := Point.mk (x (h source) + width (h source)) (Point.y (rb st)) in
  let lb := Point.mk (Point.x lb) (y (h source) + height (h source)) in
  let rb := Point.mk (Point.x rb) (y (h source) + height (h source)) in
  let lt := Point.transform lt m in
  let rt := Point.transform rt m in
  let rb := Point.transform rb m in
  let lb := Point.transform lb m in
  let h := set_x target
             (mathMin4 (Point.x lt) (Point.x rb) (Point.x lb) (Point.x rt))
             h in
  let h := set_y target
             (mathMin4 (Point.y lt) (Point.y rb) (Point.y lb) (Point.y rt))
             h in
  let maxX := mathMax4 (Point.x lt) (Point.x rb) (Point.x lb) (Point.x rt) in
  let maxY := mathMax4 (Point.y lt) (Point.y rb) (Point.y lb) (Point.y rt) in
  let h := set_width target (maxX - x (h target)) h in
  let h := set_height target (maxY - y (h target)) h in
  mkState h lt rb lb rt (minTv st) (maxTv st).

(** The test [m[1] < 1e-5 && m[2] < 1e-5] that selects the fast path. *)
Definition no_rotation (m : matrix.MatrixArray) : bool :=
  ltb (matrix.m1 m) eps && ltb (matrix.m2 m) eps.

(** [BoundingRect.applyTransform(target, source, m)]; an absent matrix is
    [None]. *)
Definition applyTransform_static (target source : loc)
    (m : option matrix.MatrixArray) (st : State) : State :=
  match m with
  | None =>
      if negb (Nat.eqb target source)
      then with_heap (copy target source (heap st)) st
      else st
  | Some m =>
      if no_rotation m
      then applyTransform_fast target source m st
      else applyTransform_general target source m st
  end.

(** The method [applyTransform(m)]. *)
Definition applyTransform (this : loc) (m : option matrix.MatrixArray)
    (st : State) : State :=
  applyTransform_static this this m st.

(** *** contain *)

Definition contain (this : loc) (x0 y0 : Q) (h : Store) : bool :=
  let rect := h this in
  geb x0 (x rect)
  && leb x0 (x rect + width rect)
  && geb y0 (y rect)
  && leb y0 (y rect + height rect).

(** *** intersect *)

(** The argument [b] of [intersect]: an instance of the class, held in the
    store, or a plain object with the four fields. *)
Inductive RectArg : Type :=
| Instance (l : loc)
| Plain (r : RectLike).

(** The local variables [dMin], [dMax] and the scratch points [minTv],
    [maxTv] that the translation-vector block of [intersect] updates. *)
Record Tv : Type := mkTv
  { dMin : ext; dMax : Q; tv_min : Point.Point; tv_max : Point.Point }.

(** The block commented "On x axis". *)
Definition intersect_x_axis (ax0 ax1 bx0 bx1 d0 d1 dx : Q) (t : Tv) : Tv :=
  if ltb ax1 bx0 || ltb bx1 ax0 then
    if gtb dx (dMax t) then
      mkTv (dMin t) dx (tv_min t)
           (if ltb d0 d1
            then Point.set (tv_max t) (- d0) 0
            else Point.set (tv_max t) d1 0)
    else t
  else
    if ltb_ext dx (dMin t) then
      mkTv (Fin dx) (dMax t)
           (if ltb d0 d1
            then Point.set (tv_min t) d0 0
            else Point.set (tv_min t) (- d1) 0)
           (tv_max t)
    else t.

(** The block commented "On y axis"; its second branch compares and stores
    [dx], as the source does. *)
Definition intersect_y_axis (ay0 ay1 by0 by1 d2 d3 dx dy : Q) (t : Tv) : Tv :=
  if ltb ay1 by0 || ltb by1 ay0 then
    if gtb dy (dMax t) then
      mkTv (dMin t) dy (tv_min t)
           (if ltb d2 d3
            then Point.set (tv_max t) 0 (- d2)
            else Point.set (tv_max t) 0 d3)
    else t
  else
    if ltb_ext dx (dMin t) then
      mkTv (Fin dx) (dMax t)
           (if ltb d2 d3
            then Point.set (tv_min t) 0 d2
            else Point.set (tv_min t) 0 (- d3))
           (tv_max t)
    else t.

(** [this.intersect(b, mtv)]: a falsy [b] and an absent [mtv] are [None].
    The result is the returned boolean, the point [mtv] after the call and
    the state after the call. *)
Definition intersect (this : loc) (b : option RectArg)
    (mtv : option Point.Point) (st : State)
  : bool * option Point.Point * State :=
  match b with
  | None => (false, mtv, st)
  | Some b =>
      let b := match b with
               | Instance l => heap st l
               | Plain r => create r
               end in
      let a := heap st this in
      let ax0 := x a in
      let ax1 := x a + width a in
      let ay0 := y a in
      let ay1 := y a + height a in
      let bx0 := x b in
      let bx1 := x b + width b in
      let by0 := y b in
      let by1 := y b + height b in
      let overlap :=
        negb (ltb ax1 bx0 || ltb bx1 ax0 || ltb ay1 by0 || ltb by1 ay0) in
      let st :=
        match mtv with
        | Some _ =>
            let t := mkTv Infinity 0 (minTv st) (maxTv st) in
            let d0 := Qabs (ax1 - bx0) in
            let d1 := Qabs (bx1 - ax0) in
            let d2 := Qabs (ay1 - by0) in
            let d3 := Qabs (by1 - ay0) in
            let dx := mathMin d0 d1 in
            let dy := mathMin d2 d3 in
            let t := intersect_x_axis ax0 ax1 bx0 bx1 d0 d1 dx t in
            let t := intersect_y_axis ay0 ay1 by0 by1 d2 d3 dx dy t in
            mkState (heap st) (lt st) (rb st) (lb st) (rt st)
                    (tv_min t) (tv_max t)
        | None => st
        end in
      match mtv with
      | Some p =>
          (overlap,
           Some (Point.copy p (if overlap then minTv st else maxTv st)),
           st)
      | None => (overlap, None, st)
      end
  end.

(** *** Projections of the result of [intersect] *)

Definition returned (r : bool * option Point.Point * State) : bool :=
  fst (fst r).
Definition mtv_after (r : bool * option Point.Point * State)
  : option Point.Point :=
  snd (fst r).
Definition state_after (r : bool * option Point.Point * State) : State :=
  snd r.

(** *** A state to run examples in *)

(** Every reference holds the zero rectangle and every scratch point is the
    origin. *)
Definition example_state : State :=
  mkState (fun _ => mk 0 0 0 0)
          (Point.mk 0 0) (Point.mk 0 0) (Point.mk 0 0) (Point.mk 0 0)
          (Point.mk 0 0) (Point.mk 0 0).

(** [st] with the object at [l] replaced by a freshly constructed
    [new BoundingRect(x0, y0, w, h)]. *)
Definition with_new (l : loc) (x0 y0 w h : Q) (st : State) : State :=
  with_heap (upd (heap st) l (constructor x0 y0 w h)) st.

(** The matrix [[-1, 0, 0, 1, 0, 0]]: a mirror image about the y axis. *)
Definition flip_x : matrix.MatrixArray := matrix.mk (-1) 0 0 1 0 0.

(** The matrix [[0, 1, -1, 0, 0, 0]]: a rotation by a quarter turn. *)
Definition quarter_turn : matrix.MatrixArray := matrix.mk 0 1 (-1) 0 0 0.

(** The four corners of a rectangle: top-left, top-right, bottom-right,
    bottom-left. *)
Definition corner_lt (r : BoundingRect) : Point.Point :=
  Point.mk (x r) (y r).
Definition corner_rt (r : BoundingRect) : Point.Point :=
  Point.mk (x r + width r) (y r).
Definition corner_rb (r : BoundingRect) : Point.Point :=
  Point.mk (x r + width r) (y r + height r).
Definition corner_lb (r : BoundingRect) : Point.Point :=
  Point.mk (x r) (y r + height r).

(** The box of the four corners of [r] after [m]. *)
Definition corners_box (r : BoundingRect) (m : matrix.MatrixArray)
  : BoundingRect :=
  let lt := Point.transform (corner_lt r) m in
  let rt := Point.transform (corner_rt r) m in
  let rb := Point.transform (corner_rb r) m in
  let lb := Point.transform (corner_lb r) m in
  let minX := mathMin4 (Point.x lt) (Point.x rb) (Point.x lb) (Point.x rt) in
  let minY := mathMin4 (Point.y lt) (Point.y rb) (Point.y lb) (Point.y rt) in
  mk minX minY
     (mathMax4 (Point.x lt) (Point.x rb) (Point.x lb) (Point.x rt) - minX)
     (mathMax4 (Point.y lt) (Point.y rb) (Point.y lb) (Point.y rt) - minY).

(** *** Notions used to state the behaviour of [intersect] *)

(** The rectangle that [intersect] compares [this] with: an instance as it
    is, a plain object after [create]. *)
Definition arg_rect (st : State) (b : RectArg) : BoundingRect :=
  match b with
  | Instance l => heap st l
  | Plain r => create r
  end.

(** The signed distance between two rectangles on each axis: positive when
    they are apart on that axis. *)
Definition gap_x (a b : BoundingRect) : Q :=
  mathMax (x b - (x a + width a)) (x a - (x b + width b)).
Definition gap_y (a b : BoundingRect) : Q :=
  mathMax (y b - (y a + height a)) (y a - (y b + height b)).

End BoundingRect.

(** ** union in double arithmetic *)

(** The same [union], with the binary64 numbers and the rounded [+] and [-]
    that the source runs with. *)
Module Double.

Local Open Scope float_scope.

(** [Math.min] and [Math.max] on doubles: [NaN] if an argument is [NaN],
    and [-0] counts as smaller than [+0]. *)
Definition mathMin (a b : float) : float :=
  if is_nan a || is_nan b then nan
  else if a <? b then a
  else if b <? a then b
  else if get_sign a then a else b.

Definition mathMax (a b : float) : float :=
  if is_nan a || is_nan b then nan
  else if a <? b then b
  else if b <? a then a
  else if get_sign a then b else a.

Record BoundingRect : Type := mk
  { x : float; y : float; width : float; height : float }.

Definition loc : Type := nat.
Definition Store : Type := loc -> BoundingRect.

Definition upd (h : Store) (l : loc) (r : BoundingRect) : Store :=
  fun l' => if Nat.eqb l' l then r else h l'.

Definition set_x (l : loc) (v : float) (h : Store) : Store :=
  upd h l (mk v (y (h l)) (width (h l)) (height (h l))).
Definition set_y (l : loc) (v : float) (h : Store) : Store :=
  upd h l (mk (x (h l)) v (width (h l)) (height (h l))).
Definition set_width (l : loc) (v : float) (h : Store) : Store :=
  upd h l (mk (x (h l)) (y (h l)) v (height (h l))).
Definition set_height (l : loc) (v : float) (h : Store) : Store :=
  upd h l (mk (x (h l)) (y (h l)) (width (h l)) v).

Definition union (this other : loc) (h : Store) : Store :=
  let x0 := mathMin (x (h other)) (x (h this)) in
  let y0 := mathMin (y (h other)) (y (h this)) in
  let h := set_width this
             (mathMax (x (h other) + width (h other))
                      (x (h this) + width (h this)) - x0) h in
  let h := set_height this
             (mathMax (y (h other) + height (h other))
                      (y (h this) + height (h this)) - y0) h in
  let h := set_x this x0 h in
  let h := set_y this y0 h in
  h.

(** Two rectangles with one-decimal fields: [a] is
    [{x: 0.8, y: 0, width: 0.1, height: 1}] at reference 0 and [b] is
    [{x: 0.2, y: 0, width: 0.1, height: 1}] at reference 1. *)
Definition example_store : Store :=
  upd (upd (fun _ => mk 0 0 0 0) 0%nat (mk 0.8 0 0.1 1)) 1%nat
      (mk 0.2 0 0.1 1).

End Double.

(** * Facts about the numbers *)

Import Num.

Lemma ltb_lt (a b : Q) : ltb a b = true <-> a < b.
Proof.
  unfold ltb. rewrite negb_true_iff, <- not_true_iff_false, Qle_bool_iff.
  split; [apply Qnot_le_lt | apply Qlt_not_le].
Qed.

Lemma ltb_ge (a b : Q) : ltb a b = false <-> b <= a.
Proof.
  unfold ltb. rewrite negb_false_iff. apply Qle_bool_iff.
Qed.

Lemma leb_le (a b : Q) : leb a b = true <-> a <= b.
Proof. apply Qle_bool_iff. Qed.

Lemma geb_ge (a b : Q) : geb a b = true <-> b <= a.
Proof. apply Qle_bool_iff. Qed.

Lemma mathMin_spec (a b : Q) :
  (a <= b /\ mathMin a b == a) \/ (b <= a /\ mathMin a b == b).
Proof.
  unfold mathMin.
  destruct (Q.min_spec a b) as [[H E] | [H E]]; [left | right];
    split; auto using Qlt_le_weak.
Qed.

Lemma mathMax_spec (a b : Q) :
  (a <= b /\ mathMax a b == b) \/ (b <= a /\ mathMax a b == a).
Proof.
  unfold mathMax.
  destruct (Q.max_spec a b) as [[H E] | [H E]]; [left | right];
    split; auto using Qlt_le_weak.
Qed.

Lemma mathMin4_le (a b c d : Q) :
  mathMin4 a b c d <= a /\ mathMin4 a b c d <= b /\
  mathMin4 a b c d <= c /\ mathMin4 a b c d <= d.
Proof.
  unfold mathMin4.
  pose proof (Q.le_min_l (Qmin (Qmin a b) c) d).
  pose proof (Q.le_min_r (Qmin (Qmin a b) c) d).
  pose proof (Q.le_min_l (Qmin a b) c).
  pose proof (Q.le_min_r (Qmin a b) c).
  pose proof (Q.le_min_l a b).
  pose proof (Q.le_min_r a b).
  repeat split; lra.
Qed.

Lemma mathMax4_ge (a b c d : Q) :
  a <= mathMax4 a b c d /\ b <= mathMax4 a b c d /\
  c <= mathMax4 a b c d /\ d <= mathMax4 a b c d.
Proof.
  unfold mathMax4.
  pose proof (Q.le_max_l (Qmax (Qmax a b) c) d).
  pose proof (Q.le_max_r (Qmax (Qmax a b) c) d).
  pose proof (Q.le_max_l (Qmax a b) c).
  pose proof (Q.le_max_r (Qmax a b) c).
  pose proof (Q.le_max_l a b).
  pose proof (Q.le_max_r a b).
  repeat split; lra.
Qed.


(** * Facts about the collaborators *)

Section Collaborators.

Import Point.

(** The modelled [translate] and [scale] post-compose, as the spec says. *)
Lemma transform_translate (p : Point) (a : matrix.MatrixArray) (v : Q * Q) :
  same (transform p (matrix.translate a v))
     (mk (x (transform p a) + fst v) (y (transform p a) + snd v)).
Proof. split; simpl; ring. Qed.

Lemma transform_scale (p : Point) (a : matrix.MatrixArray) (v : Q * Q) :
  same (transform p (matrix.scale a v))
     (mk (x (transform p a) * fst v) (y (transform p a) * snd v)).
Proof. split; simpl; ring. Qed.

Lemma transform_create (p : Point) : same (transform p matrix.create) p.
Proof. split; simpl; ring. Qed.

End Collaborators.

(** * Facts about the store *)

Import BoundingRect.

Lemma upd_here (h : Store) (l : loc) (r : BoundingRect) : upd h l r l = r.
Proof. unfold upd. now rewrite Nat.eqb_refl. Qed.

Lemma upd_there (h : Store) (l l' : loc) (r : BoundingRect) :
  l' <> l -> upd h l r l' = h l'.
Proof.
  intros N. unfold upd. apply Nat.eqb_neq in N. now rewrite N.
Qed.

(** Unfolds the assignments to fields and decides the tests on references. *)
Ltac store_simpl :=
  unfold set_x, set_y, set_width, set_height, with_x, with_y, with_width,
    with_height, upd;
  cbn [x y width height heap];
  repeat (rewrite Nat.eqb_refl; cbn [x y width height heap]).

(** The same, after a case distinction on whether [s] and [t] are one
    object. *)
Ltac store_cases s t :=
  let N := fresh "N" in
  destruct (Nat.eqb_spec s t) as [-> | N];
  [ store_simpl
  | apply Nat.eqb_neq in N; store_simpl;
    repeat (rewrite N; store_simpl) ].

(** Replaces the boolean comparisons in the goal and in [H] by their
    propositions. *)
Ltac num_prop H :=
  repeat first
    [ rewrite ltb_lt in H | rewrite ltb_ge in H
    | rewrite leb_le in H | rewrite geb_ge in H ].

(** * The constructor *)

Lemma constructor_fields (x0 y0 w h : Q) :
  constructor x0 y0 w h =
  mk (if ltb w 0 then x0 + w else x0) (if ltb h 0 then y0 + h else y0)
     (if ltb w 0 then - w else w) (if ltb h 0 then - h else h).
Proof.
  unfold constructor. now destruct (ltb w 0), (ltb h 0).
Qed.

Lemma constructor_invariant (x0 y0 w h : Q) :
  invariant (constructor x0 y0 w h).
Proof.
  rewrite constructor_fields. unfold invariant. cbn [width height].
  destruct (ltb w 0) eqn:W, (ltb h 0) eqn:H;
    num_prop W; num_prop H; split; lra.
Qed.

Lemma constructor_same_points (x0 y0 w h px py : Q) :
  in_rect (constructor x0 y0 w h) px py <-> in_box x0 y0 w h px py.
Proof.
  rewrite constructor_fields. unfold in_rect, in_box. cbn [x y width height].
  destruct (mathMin_spec x0 (x0 + w)) as [[Hx Ex] | [Hx Ex]];
    destruct (mathMax_spec x0 (x0 + w)) as [[Hx' Ex'] | [Hx' Ex']];
    destruct (mathMin_spec y0 (y0 + h)) as [[Hy Ey] | [Hy Ey]];
    destruct (mathMax_spec y0 (y0 + h)) as [[Hy' Ey'] | [Hy' Ey']];
    rewrite Ex, Ex', Ey, Ey';
    destruct (ltb w 0) eqn:W, (ltb h 0) eqn:H;
    num_prop W; num_prop H; lra.
Qed.

(** C4. For all numbers [x0], [y0], [w], [h]: if [w < 0] the constructor
    stores [x := x0 + w] and [width := - w], and otherwise keeps both;
    symmetrically for [h] and [y0].  The stored rectangle has non-negative
    dimensions and denotes the same point set as the unnormalized box.
    [create] applies the same normalization, and
    [new BoundingRect(10, 10, -5, -5)] has the fields
    [{x: 5, y: 5, width: 5, height: 5}]. *)
Theorem constructor_normalizes (x0 y0 w h : Q) :
  let r := constructor x0 y0 w h in
  (w < 0 -> x r = x0 + w /\ width r = - w) /\
  (~ w < 0 -> x r = x0 /\ width r = w) /\
  (h < 0 -> y r = y0 + h /\ height r = - h) /\
  (~ h < 0 -> y r = y0 /\ height r = h) /\
  invariant r /\
  (forall px py : Q, in_rect r px py <-> in_box x0 y0 w h px py) /\
  create (mk x0 y0 w h) = r /\
  constructor 10 10 (-5) (-5) = mk 5 5 5 5.
Proof.
  intros r. subst r.
  split; [| split; [| split; [| split; [| split; [| split; [| split]]]]]].
  - rewrite constructor_fields; cbn [x width].
    intros W. apply ltb_lt in W. now rewrite W.
  - rewrite constructor_fields; cbn [x width].
    intros W. destruct (ltb w 0) eqn:E; [| now split].
    apply ltb_lt in E. contradiction.
  - rewrite constructor_fields; cbn [y height].
    intros H. apply ltb_lt in H. now rewrite H.
  - rewrite constructor_fields; cbn [y height].
    intros H. destruct (ltb h 0) eqn:E; [| now split].
    apply ltb_lt in E. contradiction.
  - apply constructor_invariant.
  - intros px py. apply constructor_same_points.
  - reflexivity.
  - reflexivity.
Qed.

(** * union *)

Lemma union_this (this other : loc) (h : Store) :
  union this other h this =
  mk (mathMin (x (h other)) (x (h this)))
     (mathMin (y (h other)) (y (h this)))
     (mathMax (x (h other) + width (h other)) (x (h this) + width (h this))
      - mathMin (x (h other)) (x (h this)))
     (mathMax (y (h other) + height (h other)) (y (h this) + height (h this))
      - mathMin (y (h other)) (y (h this))).
Proof.
  unfold union. store_simpl.
  destruct (Nat.eqb_spec other this) as [-> | N];
    cbn [x y width height]; reflexivity.
Qed.

Lemma union_frame (this other l : loc) (h : Store) :
  l <> this -> union this other h l = h l.
Proof.
  intros N. unfold union. store_simpl.
  apply Nat.eqb_neq in N. now rewrite N.
Qed.

(** The claim C6 as stated, with no scope on the arithmetic, fails in the
    double arithmetic of the source.  For [a = {0.8, 0, 0.1, 1}] and
    [b = {0.2, 0, 0.1, 1}], [a.union(b)] stores [a.x = 0.2] and
    [a.width = 0.9 - 0.2], which rounds to [0.7]; afterwards
    [a.x + a.width] is [0.8999999999999999], and
    [max(a.x_old + a.width_old, b.x + b.width)] is [0.9]. *)
Lemma union_bounds_fail_in_doubles :
  let h := Double.example_store in
  let h' := Double.union 0%nat 1%nat h in
  let a := h 0%nat in
  let b := h 1%nat in
  let a' := h' 0%nat in
  let right_edge :=
    Double.mathMax (Double.x a + Double.width a)%float
                   (Double.x b + Double.width b)%float in
  (Double.x a' =? Double.mathMin (Double.x a) (Double.x b))%float = true /\
  (right_edge =? 0.9)%float = true /\
  (Double.x a' + Double.width a' =? 0.8999999999999999)%float = true /\
  (Double.x a' + Double.width a' =? right_edge)%float = false.
Proof. vm_compute. repeat split; reflexivity. Qed.

(** C6, amended.  In exact arithmetic, for every pair of rectangles,
    [a.union(b)] mutates [a] in place so that afterwards
    [a.x = min(a.x_old, b.x)], [a.y = min(a.y_old, b.y)],
    [a.x + a.width = max(a.x_old + a.width_old, b.x + b.width)] and
    [a.y + a.height = max(a.y_old + a.height_old, b.y + b.height)], where
    the old values are the fields of [a] before the call.  [a] and [b] may
    be the same object. *)
Theorem union_bounds (a b : loc) (h : Store) :
  let h' := union a b h in
  x (h' a) == mathMin (x (h a)) (x (h b)) /\
  y (h' a) == mathMin (y (h a)) (y (h b)) /\
  x (h' a) + width (h' a) ==
    mathMax (x (h a) + width (h a)) (x (h b) + width (h b)) /\
  y (h' a) + height (h' a) ==
    mathMax (y (h a) + height (h a)) (y (h b) + height (h b)).
Proof.
  intros h'. subst h'. rewrite union_this. cbn [x y width height].
  unfold mathMin, mathMax.
  rewrite (Q.min_comm (x (h b))), (Q.min_comm (y (h b))).
  rewrite (Q.max_comm (x (h b) + width (h b))).
  rewrite (Q.max_comm (y (h b) + height (h b))).
  repeat split; try reflexivity; ring.
Qed.

Lemma union_invariant (this other : loc) (h : Store) :
  invariant (h this) -> invariant (union this other h this).
Proof.
  intros [W H]. rewrite union_this. unfold invariant. cbn [width height].
  destruct (mathMin_spec (x (h other)) (x (h this))) as [[? ->] | [? ->]];
    destruct (mathMax_spec (x (h other) + width (h other))
                           (x (h this) + width (h this))) as [[? ->] | [? ->]];
    destruct (mathMin_spec (y (h other)) (y (h this))) as [[? ->] | [? ->]];
    destruct (mathMax_spec (y (h other) + height (h other))
                           (y (h this) + height (h this))) as [[? ->] | [? ->]];
    split; lra.
Qed.

(** * copy *)

Lemma copy_this (this other : loc) (h : Store) :
  copy this other h this = h other.
Proof.
  unfold copy. store_simpl.
  destruct (Nat.eqb_spec other this) as [-> | N];
    cbn [x y width height]; now destruct (h _).
Qed.

Lemma copy_frame (this other l : loc) (h : Store) :
  l <> this -> copy this other h l = h l.
Proof.
  intros N. unfold copy. store_simpl.
  apply Nat.eqb_neq in N. now rewrite N.
Qed.

Lemma copy_invariant (this other : loc) (h : Store) :
  invariant (h other) -> invariant (copy this other h this).
Proof. now rewrite copy_this. Qed.

(** * contain *)

Lemma contain_in_rect (this : loc) (px py : Q) (h : Store) :
  contain this px py h = true <-> in_rect (h this) px py.
Proof.
  unfold contain, in_rect.
  rewrite !andb_true_iff, !geb_ge, !leb_le. tauto.
Qed.

(** C8. For every rectangle [r] that satisfies the invariant and all
    numbers [px], [py], [r.contain(px, py)] returns true if and only if
    [r.x <= px <= r.x + r.width] and [r.y <= py <= r.y + r.height], both
    boundaries included; for [BoundingRect(0, 0, 10, 10)], [contain(0, 0)],
    [contain(10, 10)] and [contain(5, 5)] are true and
    [contain(10.0001, 5)] is false. *)
Theorem contain_closed_rect :
  (forall (r : loc) (h : Store) (px py : Q),
      invariant (h r) ->
      (contain r px py h = true <->
       (x (h r) <= px <= x (h r) + width (h r)) /\
       (y (h r) <= py <= y (h r) + height (h r)))) /\
  (forall (r : loc) (st : State),
      let h := heap (with_new r 0 0 10 10 st) in
      contain r 0 0 h = true /\
      contain r 10 10 h = true /\
      contain r 5 5 h = true /\
      contain r (100001 # 10000) 5 h = false).
Proof.
  split.
  - intros r h px py _. apply contain_in_rect.
  - intros r st h. subst h. unfold contain, with_new. cbn [heap with_heap].
    rewrite upd_here. repeat split; reflexivity.
Qed.

Lemma contain_closed_rect_witness :
  let h := heap (with_new 0%nat 0 0 10 10 example_state) in
  invariant (h 0%nat) /\
  (contain 0%nat 10 0 h = true <->
   (x (h 0%nat) <= 10 <= x (h 0%nat) + width (h 0%nat)) /\
   (y (h 0%nat) <= 0 <= y (h 0%nat) + height (h 0%nat))).
Proof.
  intros h.
  assert (I : invariant (h 0%nat)) by (split; vm_compute; discriminate).
  split; [exact I |].
  exact (proj1 contain_closed_rect 0%nat h 10 0 I).
Defined.

(** * applyTransform *)

(** What the fast path leaves in [target], whether or not [target] and
    [source] are the same object. *)
Lemma applyTransform_fast_target (target source : loc)
    (m : matrix.MatrixArray) (st : State) :
  heap (applyTransform_fast target source m st) target =
  mk (x (heap st source) * matrix.m0 m + matrix.m4 m)
     (y (heap st source) * matrix.m3 m + matrix.m5 m)
     (width (heap st source) * matrix.m0 m)
     (height (heap st source) * matrix.m3 m).
Proof.
  unfold applyTransform_fast, with_heap.
  store_cases source target; reflexivity.
Qed.

(** What the general path leaves in [target]. *)
Lemma applyTransform_general_target (target source : loc)
    (m : matrix.MatrixArray) (st : State) :
  heap (applyTransform_general target source m st) target =
  corners_box (heap st source) m.
Proof.
  unfold applyTransform_general, corners_box, corner_lt, corner_rt,
    corner_rb, corner_lb.
  store_simpl. cbn [Point.x Point.y]. reflexivity.
Qed.

Lemma applyTransform_frame (target source l : loc)
    (m : option matrix.MatrixArray) (st : State) :
  l <> target -> heap (applyTransform_static target source m st) l = heap st l.
Proof.
  intros N. pose proof N as N'. apply Nat.eqb_neq in N'.
  unfold applyTransform_static.
  destruct m as [m |].
  - destruct (no_rotation m).
    + unfold applyTransform_fast, with_heap. store_simpl. now rewrite N'.
    + unfold applyTransform_general. store_simpl. now rewrite N'.
  - destruct (negb (target =? source)%nat); [| reflexivity].
    unfold with_heap. cbn [heap]. now apply copy_frame.
Qed.

Lemma corners_box_invariant (r : BoundingRect) (m : matrix.MatrixArray) :
  invariant (corners_box r m).
Proof.
  unfold corners_box, invariant. cbn [width height].
  set (lt := Point.transform (corner_lt r) m).
  set (rt := Point.transform (corner_rt r) m).
  set (rb := Point.transform (corner_rb r) m).
  set (lb := Point.transform (corner_lb r) m).
  pose proof (mathMin4_le (Point.x lt) (Point.x rb) (Point.x lb) (Point.x rt)).
  pose proof (mathMax4_ge (Point.x lt) (Point.x rb) (Point.x lb) (Point.x rt)).
  pose proof (mathMin4_le (Point.y lt) (Point.y rb) (Point.y lb) (Point.y rt)).
  pose proof (mathMax4_ge (Point.y lt) (Point.y rb) (Point.y lb) (Point.y rt)).
  split; lra.
Qed.

(** C10. Whenever the static [applyTransform] takes the general
    four-corner path, that is [m] is present and
    [m[1] < 1e-5 && m[2] < 1e-5] is false, the resulting target has
    [width >= 0] and [height >= 0], for every source rectangle: both are a
    maximum minus a minimum over the four transformed corners. *)
Theorem applyTransform_general_path_invariant (target source : loc)
    (m : matrix.MatrixArray) (st : State) :
  no_rotation m = false ->
  let target' := heap (applyTransform_static target source (Some m) st) target in
  target' = corners_box (heap st source) m /\
  0 <= width target' /\ 0 <= height target'.
Proof.
  intros G target'. subst target'. unfold applyTransform_static.
  rewrite G, applyTransform_general_target.
  split; [reflexivity | apply corners_box_invariant].
Qed.

Lemma applyTransform_general_path_invariant_witness :
  no_rotation quarter_turn = false /\
  let target' :=
    heap (applyTransform_static 1%nat 0%nat (Some quarter_turn)
            (with_new 0%nat 0 0 10 20 example_state)) 1%nat in
  target' = corners_box (heap (with_new 0%nat 0 0 10 20 example_state) 0%nat)
                        quarter_turn /\
  0 <= width target' /\ 0 <= height target'.
Proof.
  split; [reflexivity |].
  apply (applyTransform_general_path_invariant 1%nat 0%nat quarter_turn
           (with_new 0%nat 0 0 10 20 example_state)).
  reflexivity.
Defined.

(** With no matrix the target becomes a copy of the source. *)
Lemma applyTransform_absent_target (target source : loc) (st : State) :
  heap (applyTransform_static target source None st) target = heap st source.
Proof.
  unfold applyTransform_static.
  destruct (Nat.eqb_spec target source) as [-> | N]; cbn [negb].
  - reflexivity.
  - unfold with_heap. cbn [heap]. apply copy_this.
Qed.

(** The fast path keeps the invariant when neither scale factor is
    negative. *)
Lemma applyTransform_fast_invariant (target source : loc)
    (m : matrix.MatrixArray) (st : State) :
  0 <= matrix.m0 m -> 0 <= matrix.m3 m ->
  invariant (heap st source) ->
  invariant (heap (applyTransform_fast target source m st) target).
Proof.
  intros Sx Sy [W H]. rewrite applyTransform_fast_target.
  split; cbn [width height]; now apply Qmult_le_0_compat.
Qed.

(** The static [applyTransform] keeps the invariant on every path but the
    fast path with a negative scale factor. *)
Lemma applyTransform_static_invariant (target source : loc)
    (m : option matrix.MatrixArray) (st : State) :
  invariant (heap st source) ->
  match m with
  | Some m => no_rotation m = true -> 0 <= matrix.m0 m /\ 0 <= matrix.m3 m
  | None => True
  end ->
  invariant (heap (applyTransform_static target source m st) target).
Proof.
  intros I S. destruct m as [m |].
  - unfold applyTransform_static. destruct (no_rotation m).
    + destruct (S eq_refl). now apply applyTransform_fast_invariant.
    + rewrite applyTransform_general_target. apply corners_box_invariant.
  - now rewrite applyTransform_absent_target.
Qed.

(** C1, at the input that breaks it.  A rectangle built by
    [new BoundingRect(0, 0, 10, 10)] satisfies the invariant;
    [applyTransform] with the mirror matrix [[-1, 0, 0, 1, 0, 0]] takes the
    fast path and leaves the fields [{x: 0, y: 0, width: -10, height: 10}],
    so that [width >= 0] no longer holds. *)
Theorem applyTransform_mirror_negative_width (r : loc) (st : State) :
  let st1 := with_new r 0 0 10 10 st in
  let st2 := applyTransform r (Some flip_x) st1 in
  invariant (heap st1 r) /\
  heap st2 r = mk 0 0 (-10) 10 /\
  width (heap st2 r) < 0 /\
  ~ invariant (heap st2 r).
Proof.
  intros st1 st2.
  assert (E : heap st2 r = mk 0 0 (-10) 10).
  { subst st2 st1. unfold applyTransform, applyTransform_static.
    replace (no_rotation flip_x) with true by reflexivity.
    rewrite applyTransform_fast_target. unfold with_new. cbn [heap with_heap].
    rewrite upd_here. reflexivity. }
  split; [| split; [exact E | split]].
  - subst st1. unfold with_new. cbn [heap with_heap]. rewrite upd_here.
    apply constructor_invariant.
  - rewrite E. reflexivity.
  - rewrite E. intros [W _]. cbn [width] in W. lra.
Qed.

(** The fast path breaks the invariant as soon as a scale factor is
    negative and the source is not flat. *)
Lemma applyTransform_fast_negative_scale (target source : loc)
    (m : matrix.MatrixArray) (st : State) :
  matrix.m0 m < 0 -> 0 < width (heap st source) ->
  width (heap (applyTransform_fast target source m st) target) < 0.
Proof.
  intros Sx W. rewrite applyTransform_fast_target. cbn [width].
  assert (0 < width (heap st source) * - matrix.m0 m)
    by (apply Qmult_lt_0_compat; lra).
  lra.
Qed.

Lemma mathMin4_eq (a b c d v : Q) :
  v <= a -> v <= b -> v <= c -> v <= d ->
  v == a \/ v == b \/ v == c \/ v == d ->
  mathMin4 a b c d == v.
Proof.
  intros Ha Hb Hc Hd Hv. unfold mathMin4.
  destruct (Q.min_spec a b) as [[? ?] | [? ?]];
    destruct (Q.min_spec (Qmin a b) c) as [[? ?] | [? ?]];
    destruct (Q.min_spec (Qmin (Qmin a b) c) d) as [[? ?] | [? ?]];
    destruct Hv as [Hv | [Hv | [Hv | Hv]]]; lra.
Qed.

Lemma mathMax4_eq (a b c d v : Q) :
  a <= v -> b <= v -> c <= v -> d <= v ->
  v == a \/ v == b \/ v == c \/ v == d ->
  mathMax4 a b c d == v.
Proof.
  intros Ha Hb Hc Hd Hv. unfold mathMax4.
  destruct (Q.max_spec a b) as [[? ?] | [? ?]];
    destruct (Q.max_spec (Qmax a b) c) as [[? ?] | [? ?]];
    destruct (Q.max_spec (Qmax (Qmax a b) c) d) as [[? ?] | [? ?]];
    destruct Hv as [Hv | [Hv | [Hv | Hv]]]; lra.
Qed.

(** For a scale-and-translate matrix with no negative scale factor the two
    paths agree on every rectangle that satisfies the invariant. *)
Lemma applyTransform_paths_agree (target source : loc) (sx sy tx ty : Q)
    (st : State) :
  0 <= sx -> 0 <= sy -> invariant (heap st source) ->
  let m := matrix.mk sx 0 0 sy tx ty in
  same (heap (applyTransform_fast target source m st) target)
       (heap (applyTransform_general target source m st) target).
Proof.
  intros Sx Sy [W H] m. subst m.
  rewrite applyTransform_fast_target, applyTransform_general_target.
  destruct (heap st source) as [x0 y0 w h]. cbn [x y width height] in *.
  assert (Pw : 0 <= sx * w) by now apply Qmult_le_0_compat.
  assert (Ph : 0 <= sy * h) by now apply Qmult_le_0_compat.
  unfold same, corners_box, corner_lt, corner_rt, corner_rb, corner_lb,
    Point.transform.
  cbn [x y width height Point.x Point.y
       matrix.m0 matrix.m1 matrix.m2 matrix.m3 matrix.m4 matrix.m5].
  assert (Ex : mathMin4 (sx * x0 + 0 * y0 + tx) (sx * (x0 + w) + 0 * (y0 + h) + tx)
                 (sx * x0 + 0 * (y0 + h) + tx) (sx * (x0 + w) + 0 * y0 + tx)
               == x0 * sx + tx)
    by (apply mathMin4_eq; try lra; left; lra).
  assert (Ey : mathMin4 (0 * x0 + sy * y0 + ty) (0 * (x0 + w) + sy * (y0 + h) + ty)
                 (0 * x0 + sy * (y0 + h) + ty) (0 * (x0 + w) + sy * y0 + ty)
               == y0 * sy + ty)
    by (apply mathMin4_eq; try lra; left; lra).
  assert (Ex' : mathMax4 (sx * x0 + 0 * y0 + tx) (sx * (x0 + w) + 0 * (y0 + h) + tx)
                  (sx * x0 + 0 * (y0 + h) + tx) (sx * (x0 + w) + 0 * y0 + tx)
                == (x0 + w) * sx + tx)
    by (apply mathMax4_eq; try lra; right; left; lra).
  assert (Ey' : mathMax4 (0 * x0 + sy * y0 + ty) (0 * (x0 + w) + sy * (y0 + h) + ty)
                  (0 * x0 + sy * (y0 + h) + ty) (0 * (x0 + w) + sy * y0 + ty)
                == (y0 + h) * sy + ty)
    by (apply mathMax4_eq; try lra; right; left; lra).
  rewrite Ex, Ey, Ex', Ey'. repeat split; ring.
Qed.

(** C2, at the input that breaks it.  For the rectangle
    [new BoundingRect(0, 0, 10, 10)] and the scale-and-translate matrix
    [[-1, 0, 0, 1, 0, 0]] the fast path leaves
    [{x: 0, y: 0, width: -10, height: 10}] in the target, and the general
    four-corner path leaves [{x: -10, y: 0, width: 10, height: 10}]: the two
    differ in [x] and in [width]. *)
Theorem applyTransform_paths_differ_on_mirror (target source : loc)
    (st : State) :
  let st1 := with_new source 0 0 10 10 st in
  let fast := heap (applyTransform_fast target source flip_x st1) target in
  let general := heap (applyTransform_general target source flip_x st1) target in
  no_rotation flip_x = true /\
  fast = mk 0 0 (-10) 10 /\
  general = mk (-10) 0 10 10 /\
  ~ x fast == x general /\
  ~ width fast == width general.
Proof.
  intros st1 fast general.
  assert (Ef : fast = mk 0 0 (-10) 10).
  { subst fast st1. rewrite applyTransform_fast_target.
    unfold with_new. cbn [heap with_heap]. rewrite upd_here. reflexivity. }
  assert (Eg : general = mk (-10) 0 10 10).
  { subst general st1. rewrite applyTransform_general_target.
    unfold with_new. cbn [heap with_heap]. rewrite upd_here. reflexivity. }
  rewrite Ef, Eg. cbn [x width].
  repeat split; try reflexivity; intros E; discriminate E.
Qed.

(** * calculateTransform *)

(** The matrix that [calculateTransform] builds: a scale by
    [b.width / a.width] and [b.height / a.height] and a translation, with no
    rotation. *)
Lemma calculateTransform_matrix (a : loc) (b : RectLike) (h : Store) :
  let m := calculateTransform a b h in
  matrix.m0 m == width b / width (h a) /\
  matrix.m1 m == 0 /\
  matrix.m2 m == 0 /\
  matrix.m3 m == height b / height (h a) /\
  matrix.m4 m == x b - x (h a) * (width b / width (h a)) /\
  matrix.m5 m == y b - y (h a) * (height b / height (h a)).
Proof.
  unfold calculateTransform, matrix.translate, matrix.scale, matrix.create.
  cbn [fst snd matrix.m0 matrix.m1 matrix.m2 matrix.m3 matrix.m4 matrix.m5].
  repeat split; ring.
Qed.

Lemma calculateTransform_no_rotation (a : loc) (b : RectLike) (h : Store) :
  no_rotation (calculateTransform a b h) = true.
Proof.
  destruct (calculateTransform_matrix a b h) as (_ & E1 & E2 & _).
  unfold no_rotation. apply andb_true_iff.
  split; apply ltb_lt; [rewrite E1 | rewrite E2]; reflexivity.
Qed.

(** The round trip needs only that the extents of [a] are not zero. *)
Lemma calculateTransform_applyTransform (result a : loc) (b : RectLike)
    (st : State) :
  ~ width (heap st a) == 0 -> ~ height (heap st a) == 0 ->
  same (heap (applyTransform_static result a
                (Some (calculateTransform a b (heap st))) st) result)
       b.
Proof.
  intros W H. unfold applyTransform_static.
  rewrite calculateTransform_no_rotation, applyTransform_fast_target.
  destruct (calculateTransform_matrix a b (heap st))
    as (E0 & _ & _ & E3 & E4 & E5).
  unfold same. cbn [x y width height].
  rewrite E0, E3, E4, E5.
  repeat split; field; assumption.
Qed.

(** C5. For all rectangles [a] and [b] with strictly positive width and
    height, applying the matrix [a.calculateTransform(b)] to [a] through the
    static [applyTransform] yields a rectangle whose [x], [y], [width] and
    [height] equal those of [b], under exact rational arithmetic. *)
Theorem calculateTransform_roundtrip (result a : loc) (b : RectLike)
    (st : State) :
  0 < width (heap st a) -> 0 < height (heap st a) ->
  0 < width b -> 0 < height b ->
  let m := calculateTransform a b (heap st) in
  let result' := heap (applyTransform_static result a (Some m) st) result in
  x result' == x b /\ y result' == y b /\
  width result' == width b /\ height result' == height b.
Proof.
  intros Wa Ha _ _ m result'.
  apply calculateTransform_applyTransform; intros E; rewrite E in *;
    [exact (Qlt_irrefl 0 Wa) | exact (Qlt_irrefl 0 Ha)].
Qed.

Lemma calculateTransform_roundtrip_witness :
  let st := with_new 0%nat 0 0 10 10 example_state in
  let b := mk 3 4 5 6 in
  0 < width (heap st 0%nat) /\ 0 < height (heap st 0%nat) /\
  0 < width b /\ 0 < height b /\
  let m := calculateTransform 0%nat b (heap st) in
  let result' := heap (applyTransform_static 1%nat 0%nat (Some m) st) 1%nat in
  x result' == x b /\ y result' == y b /\
  width result' == width b /\ height result' == height b.
Proof.
  intros st b.
  assert (Wa : 0 < width (heap st 0%nat)) by reflexivity.
  assert (Ha : 0 < height (heap st 0%nat)) by reflexivity.
  assert (Wb : 0 < width b) by reflexivity.
  assert (Hb : 0 < height b) by reflexivity.
  repeat (split; [assumption |]).
  exact (calculateTransform_roundtrip 1%nat 0%nat b st Wa Ha Wb Hb).
Defined.

(** * intersect *)

(** C7. For every rectangle [a] and every falsy argument [b], with or
    without an [mtv] argument, [a.intersect(b, mtv)] returns false; it
    performs no overlap computation: the state, scratch points included, is
    left as it was. *)
Theorem intersect_falsy_false (a : loc) (mtv : option Point.Point)
    (st : State) :
  returned (intersect a None mtv st) = false /\
  state_after (intersect a None mtv st) = st.
Proof. split; reflexivity. Qed.

(** C9. For every rectangle [a], every falsy [b] and every supplied point
    [mtv], [a.intersect(b, mtv)] leaves [mtv] unchanged. *)
Theorem intersect_falsy_keeps_mtv (a : loc) (p : Point.Point) (st : State) :
  mtv_after (intersect a None (Some p) st) = Some p.
Proof. reflexivity. Qed.

(** The boolean that [intersect] returns for a rectangle [b]: the two
    closed boxes are not separated on either axis. *)
Lemma intersect_returned (this : loc) (b : RectArg)
    (mtv : option Point.Point) (st : State) :
  let a := heap st this in
  let b' := match b with Instance l => heap st l | Plain r => create r end in
  returned (intersect this (Some b) mtv st) =
  negb (ltb (x a + width a) (x b') || ltb (x b' + width b') (x a)
        || ltb (y a + height a) (y b') || ltb (y b' + height b') (y a)).
Proof.
  unfold intersect, returned. destruct mtv; reflexivity.
Qed.

(** With a rectangle [b] the point [mtv] is overwritten, by a copy of one of
    the two scratch vectors as the call leaves them. *)
Lemma intersect_truthy_writes_mtv (this : loc) (b : RectArg)
    (p : Point.Point) (st : State) :
  let r := intersect this (Some b) (Some p) st in
  mtv_after r =
  Some (Point.copy p (if returned r then minTv (state_after r)
                      else maxTv (state_after r))).
Proof.
  unfold intersect, mtv_after, returned, state_after. reflexivity.
Qed.

(** When the rectangles overlap, the "On y axis" block never writes: the
    vector copied into [mtv] lies on the x axis, and its length is the
    smaller of the two push-out distances on x, whatever the penetration
    on y. *)
Lemma intersect_overlap_on_x_axis (this : loc) (b : RectArg)
    (p : Point.Point) (st : State) :
  let a := heap st this in
  let b' := match b with Instance l => heap st l | Plain r => create r end in
  let d0 := Qabs (x a + width a - x b') in
  let d1 := Qabs (x b' + width b' - x a) in
  returned (intersect this (Some b) (Some p) st) = true ->
  mtv_after (intersect this (Some b) (Some p) st) =
  Some (if ltb d0 d1 then Point.mk d0 0 else Point.mk (- d1) 0).
Proof.
  intros a b' d0 d1. rewrite intersect_returned. fold a b'.
  rewrite negb_true_iff, !orb_false_iff. intros [[[X0 X1] Y0] Y1].
  unfold intersect, mtv_after. fold a b'. cbn [fst snd].
  rewrite X0, X1, Y0, Y1. cbn [orb negb].
  unfold intersect_x_axis, intersect_y_axis. rewrite X0, X1, Y0, Y1.
  cbn [orb dMin ltb_ext tv_min minTv].
  fold d0 d1.
  replace (ltb (mathMin d0 d1) (mathMin d0 d1)) with false.
  - cbn [tv_min minTv]. unfold Point.copy, Point.set.
    now destruct (ltb d0 d1).
  - symmetry. apply ltb_ge. apply Qle_refl.
Qed.

(** C3, at an input that breaks it.  [new BoundingRect(0, 0, 10, 10)] and
    [new BoundingRect(1, 8, 10, 10)] overlap; the penetration on the y axis
    is 2 and the penetration on the x axis is 9, so the smallest separating
    displacement lies on the y axis.  [intersect] returns true and writes
    [(9, 0)] into [mtv]: a vector on the x axis. *)
Theorem intersect_mtv_on_wrong_axis (a b : loc) (p : Point.Point)
    (st : State) :
  a <> b ->
  let st1 := with_new b 1 8 10 10 (with_new a 0 0 10 10 st) in
  let ra := heap st1 a in
  let rb := heap st1 b in
  let pen_x := mathMin (Qabs (x ra + width ra - x rb))
                       (Qabs (x rb + width rb - x ra)) in
  let pen_y := mathMin (Qabs (y ra + height ra - y rb))
                       (Qabs (y rb + height rb - y ra)) in
  pen_x == 9 /\ pen_y == 2 /\
  returned (intersect a (Some (Instance b)) (Some p) st1) = true /\
  mtv_after (intersect a (Some (Instance b)) (Some p) st1) =
  Some (Point.mk 9 0).
Proof.
  intros N st1 ra rb pen_x pen_y.
  assert (Ea : ra = mk 0 0 10 10).
  { subst ra st1. unfold with_new. cbn [heap with_heap].
    now rewrite upd_there, upd_here. }
  assert (Eb : rb = mk 1 8 10 10).
  { subst rb st1. unfold with_new. cbn [heap with_heap].
    now rewrite upd_here. }
  assert (R : returned (intersect a (Some (Instance b)) (Some p) st1) = true).
  { rewrite intersect_returned. fold ra rb. rewrite Ea, Eb. reflexivity. }
  split; [| split; [| split; [exact R |]]].
  - subst pen_x. rewrite Ea, Eb. reflexivity.
  - subst pen_y. rewrite Ea, Eb. reflexivity.
  - rewrite (intersect_overlap_on_x_axis a (Instance b) p st1 R).
    fold ra rb. rewrite Ea, Eb. reflexivity.
Qed.

Lemma intersect_mtv_on_wrong_axis_witness :
  let st1 :=
    with_new 1%nat 1 8 10 10 (with_new 0%nat 0 0 10 10 example_state) in
  returned (intersect 0%nat (Some (Instance 1%nat)) (Some (Point.mk 0 0)) st1)
  = true /\
  mtv_after (intersect 0%nat (Some (Instance 1%nat)) (Some (Point.mk 0 0)) st1)
  = Some (Point.mk 9 0).
Proof.
  assert (N : 0%nat <> 1%nat) by discriminate.
  exact (proj2 (proj2 (intersect_mtv_on_wrong_axis 0%nat 1%nat (Point.mk 0 0)
                         example_state N))).
Defined.

(** * Further properties of union *)

(** X1. [a.union(a)] leaves every field of [a] as it was. *)
Theorem union_self (a : loc) (h : Store) :
  same (union a a h a) (h a).
Proof.
  rewrite union_this. unfold same, mathMin, mathMax. cbn [x y width height].
  rewrite !Q.min_id, !Q.max_id. repeat split; ring.
Qed.

(** X2. [a.union(b)] and [b.union(a)], run from the same store, leave the
    same four fields in [a] and in [b] respectively. *)
Theorem union_commutes (a b : loc) (h : Store) :
  same (union a b h a) (union b a h b).
Proof.
  rewrite !union_this. unfold same, mathMin, mathMax. cbn [x y width height].
  rewrite (Q.min_comm (x (h b))), (Q.min_comm (y (h b))).
  rewrite (Q.max_comm (x (h b) + width (h b))).
  rewrite (Q.max_comm (y (h b) + height (h b))).
  repeat split; reflexivity.
Qed.

Lemma union_in_rect (a b : loc) (h : Store) (px py : Q) :
  in_rect (union a b h a) px py <->
  (mathMin (x (h b)) (x (h a)) <= px
     <= mathMax (x (h b) + width (h b)) (x (h a) + width (h a))) /\
  (mathMin (y (h b)) (y (h a)) <= py
     <= mathMax (y (h b) + height (h b)) (y (h a) + height (h a))).
Proof.
  rewrite union_this. unfold in_rect. cbn [x y width height].
  split; intros [[? ?] [? ?]]; repeat split; lra.
Qed.

(** X3. In exact arithmetic, every point that [a] or [b] contains before
    [a.union(b)] is contained in [a] afterwards. *)
Theorem union_contains_both (a b : loc) (h : Store) (px py : Q) :
  contain a px py h = true \/ contain b px py h = true ->
  contain a px py (union a b h) = true.
Proof.
  rewrite !contain_in_rect, union_in_rect. unfold in_rect.
  pose proof (Q.le_min_l (x (h b)) (x (h a))).
  pose proof (Q.le_min_r (x (h b)) (x (h a))).
  pose proof (Q.le_min_l (y (h b)) (y (h a))).
  pose proof (Q.le_min_r (y (h b)) (y (h a))).
  pose proof (Q.le_max_l (x (h b) + width (h b)) (x (h a) + width (h a))).
  pose proof (Q.le_max_r (x (h b) + width (h b)) (x (h a) + width (h a))).
  pose proof (Q.le_max_l (y (h b) + height (h b)) (y (h a) + height (h a))).
  pose proof (Q.le_max_r (y (h b) + height (h b)) (y (h a) + height (h a))).
  unfold mathMin, mathMax.
  intros [[[? ?] [? ?]] | [[? ?] [? ?]]]; repeat split; lra.
Qed.

Lemma union_contains_both_witness :
  let h := heap (with_new 1%nat 1 8 10 10
                   (with_new 0%nat 0 0 10 10 example_state)) in
  (contain 0%nat 11 18 h = true \/ contain 1%nat 11 18 h = true) /\
  contain 0%nat 11 18 (union 0%nat 1%nat h) = true.
Proof.
  intros h.
  assert (C : contain 0%nat 11 18 h = true \/ contain 1%nat 11 18 h = true)
    by (right; reflexivity).
  split; [exact C |].
  exact (union_contains_both 0%nat 1%nat h 11 18 C).
Defined.



(** X5. [a.union(b)] leaves [a] with non-negative width and height as soon
    as one of [a], [b] had them before the call. *)
Theorem union_keeps_invariant (a b : loc) (h : Store) :
  invariant (h a) \/ invariant (h b) -> invariant (union a b h a).
Proof.
  intros I. rewrite union_this. unfold invariant in *. cbn [width height].
  pose proof (Q.le_min_l (x (h b)) (x (h a))).
  pose proof (Q.le_min_r (x (h b)) (x (h a))).
  pose proof (Q.le_min_l (y (h b)) (y (h a))).
  pose proof (Q.le_min_r (y (h b)) (y (h a))).
  pose proof (Q.le_max_l (x (h b) + width (h b)) (x (h a) + width (h a))).
  pose proof (Q.le_max_r (x (h b) + width (h b)) (x (h a) + width (h a))).
  pose proof (Q.le_max_l (y (h b) + height (h b)) (y (h a) + height (h a))).
  pose proof (Q.le_max_r (y (h b) + height (h b)) (y (h a) + height (h a))).
  unfold mathMin, mathMax.
  destruct I as [[? ?] | [? ?]]; split; lra.
Qed.

Lemma union_keeps_invariant_witness :
  let h := upd (heap (with_new 0%nat 0 0 10 10 example_state)) 1%nat
               (mk 3 3 (-1) (-1)) in
  (invariant (h 1%nat) \/ invariant (h 0%nat)) /\
  invariant (union 1%nat 0%nat h 1%nat).
Proof.
  intros h.
  assert (I : invariant (h 1%nat) \/ invariant (h 0%nat))
    by (right; split; vm_compute; discriminate).
  split; [exact I |].
  exact (union_keeps_invariant 1%nat 0%nat h I).
Defined.

(** * Further properties of the constructor, create and clone *)

Lemma eq_Qeq (a b : Q) : a = b -> a == b.
Proof. intros ->. reflexivity. Qed.

Lemma constructor_fixes (r : BoundingRect) :
  create r = r <-> invariant r.
Proof.
  unfold create. rewrite constructor_fields. destruct r as [x0 y0 w h].
  unfold invariant. cbn [x y width height].
  split.
  - intros E. injection E as _ _ Ew Eh.
    apply eq_Qeq in Ew. apply eq_Qeq in Eh.
    destruct (ltb w 0) eqn:W, (ltb h 0) eqn:H; num_prop W; num_prop H;
      split; lra.
  - intros [W H]. apply ltb_ge in W, H. now rewrite W, H.
Qed.

(** X6. [create] returns its argument field for field exactly when the
    argument has non-negative width and height, and normalizing twice is
    the same as normalizing once. *)
Theorem create_fixes_normalized :
  (forall r : RectLike, create r = r <-> invariant r) /\
  (forall r : RectLike, create (create r) = create r).
Proof.
  split.
  - apply constructor_fixes.
  - intros r. apply constructor_fixes. apply constructor_invariant.
Qed.

(** X7. [clone] always yields a rectangle with non-negative width and
    height, and it has the very fields of [this] exactly when [this] has
    non-negative width and height.  In exact arithmetic the clone denotes
    the same point set as the box spanned by the fields of [this]. *)
Theorem clone_normalizes (this : loc) (h : Store) :
  invariant (clone this h) /\
  (forall px py : Q,
      in_rect (clone this h) px py <->
      in_box (x (h this)) (y (h this)) (width (h this)) (height (h this))
             px py) /\
  (clone this h = h this <-> invariant (h this)).
Proof.
  split; [apply constructor_invariant | split].
  - intros px py. apply constructor_same_points.
  - apply constructor_fixes.
Qed.

(** * Further properties of applyTransform *)

(** X8. With an absent matrix the static [applyTransform] leaves in
    [target] the fields of [source] (nothing changes when they are the same
    object), changes no other object and writes no scratch point. *)
Theorem applyTransform_absent_matrix (target source : loc) (st : State) :
  let st' := applyTransform_static target source None st in
  heap st' target = heap st source /\
  (forall l : loc, l <> target -> heap st' l = heap st l) /\
  (target = source -> st' = st) /\
  lt st' = lt st /\ rb st' = rb st /\ lb st' = lb st /\ rt st' = rt st /\
  minTv st' = minTv st /\ maxTv st' = maxTv st.
Proof.
  intros st'. subst st'.
  split; [apply applyTransform_absent_target | split; [| split]].
  - intros l N. now apply applyTransform_frame.
  - intros ->. unfold applyTransform_static. now rewrite Nat.eqb_refl.
  - unfold applyTransform_static.
    destruct (negb (target =? source)%nat); repeat split; reflexivity.
Qed.

Lemma mathMin4_in (a b c d : Q) :
  mathMin4 a b c d == a \/ mathMin4 a b c d == b \/
  mathMin4 a b c d == c \/ mathMin4 a b c d == d.
Proof.
  unfold mathMin4.
  destruct (Q.min_spec a b) as [[? Eab] | [? Eab]];
    destruct (Q.min_spec (Qmin a b) c) as [[? Ec] | [? Ec]];
    destruct (Q.min_spec (Qmin (Qmin a b) c) d) as [[? Ed] | [? Ed]];
    rewrite Ed, ?Ec, ?Eab; auto using Qeq_refl.
Qed.

Lemma mathMax4_in (a b c d : Q) :
  mathMax4 a b c d == a \/ mathMax4 a b c d == b \/
  mathMax4 a b c d == c \/ mathMax4 a b c d == d.
Proof.
  unfold mathMax4.
  destruct (Q.max_spec a b) as [[? Eab] | [? Eab]];
    destruct (Q.max_spec (Qmax a b) c) as [[? Ec] | [? Ec]];
    destruct (Q.max_spec (Qmax (Qmax a b) c) d) as [[? Ed] | [? Ed]];
    rewrite Ed, ?Ec, ?Eab; auto using Qeq_refl.
Qed.

(** X9. In exact arithmetic, on the general path the target contains the
    four transformed corners of the source, and it is contained in every
    rectangle that contains them: it is their smallest bounding box,
    whatever the point transform computes. *)
Theorem applyTransform_general_least_box (target source : loc)
    (m : matrix.MatrixArray) (st : State) :
  no_rotation m = false ->
  let src := heap st source in
  let target' :=
    heap (applyTransform_static target source (Some m) st) target in
  let c1 := Point.transform (corner_lt src) m in
  let c2 := Point.transform (corner_rt src) m in
  let c3 := Point.transform (corner_rb src) m in
  let c4 := Point.transform (corner_lb src) m in
  (holds target' c1 /\ holds target' c2 /\
   holds target' c3 /\ holds target' c4) /\
  (forall r : BoundingRect,
      holds r c1 -> holds r c2 -> holds r c3 -> holds r c4 ->
      forall px py : Q, in_rect target' px py -> in_rect r px py).
Proof.
  intros G src target' c1 c2 c3 c4.
  assert (E : target' = corners_box src m).
  { subst target'. unfold applyTransform_static.
    now rewrite G, applyTransform_general_target. }
  rewrite E. unfold corners_box. fold c1 c2 c3 c4. unfold holds, in_rect.
  cbn [x y width height].
  pose proof (mathMin4_le (Point.x c1) (Point.x c3) (Point.x c4) (Point.x c2)).
  pose proof (mathMax4_ge (Point.x c1) (Point.x c3) (Point.x c4) (Point.x c2)).
  pose proof (mathMin4_le (Point.y c1) (Point.y c3) (Point.y c4) (Point.y c2)).
  pose proof (mathMax4_ge (Point.y c1) (Point.y c3) (Point.y c4) (Point.y c2)).
  split; [repeat split; lra |].
  intros r [[? ?] [? ?]] [[? ?] [? ?]] [[? ?] [? ?]] [[? ?] [? ?]] px py.
  destruct
    (mathMin4_in (Point.x c1) (Point.x c3) (Point.x c4) (Point.x c2))
    as [-> | [-> | [-> | ->]]];
    destruct
      (mathMax4_in (Point.x c1) (Point.x c3) (Point.x c4) (Point.x c2))
      as [-> | [-> | [-> | ->]]];
    destruct
      (mathMin4_in (Point.y c1) (Point.y c3) (Point.y c4) (Point.y c2))
      as [-> | [-> | [-> | ->]]];
    destruct
      (mathMax4_in (Point.y c1) (Point.y c3) (Point.y c4) (Point.y c2))
      as [-> | [-> | [-> | ->]]];
    intros [[? ?] [? ?]]; repeat split; lra.
Qed.

Lemma applyTransform_general_least_box_witness :
  let st := with_new 0%nat 0 0 10 20 example_state in
  no_rotation quarter_turn = false /\
  holds (heap (applyTransform_static 1%nat 0%nat (Some quarter_turn) st) 1%nat)
        (Point.transform (corner_rb (heap st 0%nat)) quarter_turn).
Proof.
  intros st.
  assert (G : no_rotation quarter_turn = false) by reflexivity.
  split; [exact G |].
  exact (proj1 (proj2 (proj2 (proj1
    (applyTransform_general_least_box 1%nat 0%nat quarter_turn st G))))).
Defined.

(** The box of the four transformed corners contains the image of every
    point of the rectangle: the map is affine, so each coordinate of the
    image lies between its values at the corners. *)
Lemma corners_box_contains_image (r : BoundingRect) (m : matrix.MatrixArray)
    (px py : Q) :
  in_rect r px py -> holds (corners_box r m) (Point.transform (Point.mk px py) m).
Proof.
  intros [[X0 X1] [Y0 Y1]].
  unfold holds, in_rect, corners_box, corner_lt, corner_rt, corner_rb,
    corner_lb, Point.transform.
  cbn [x y width height Point.x Point.y].
  destruct r as [x0 y0 w h]. cbn [x y width height] in *.
  destruct m as [a b c d tx ty].
  cbn [matrix.m0 matrix.m1 matrix.m2 matrix.m3 matrix.m4 matrix.m5].
  set (u1 := a * x0 + c * y0 + tx).
  set (u2 := a * (x0 + w) + c * (y0 + h) + tx).
  set (u3 := a * x0 + c * (y0 + h) + tx).
  set (u4 := a * (x0 + w) + c * y0 + tx).
  set (v1 := b * x0 + d * y0 + ty).
  set (v2 := b * (x0 + w) + d * (y0 + h) + ty).
  set (v3 := b * x0 + d * (y0 + h) + ty).
  set (v4 := b * (x0 + w) + d * y0 + ty).
  pose proof (mathMin4_le u1 u2 u3 u4) as (? & ? & ? & ?).
  pose proof (mathMax4_ge u1 u2 u3 u4) as (? & ? & ? & ?).
  pose proof (mathMin4_le v1 v2 v3 v4) as (? & ? & ? & ?).
  pose proof (mathMax4_ge v1 v2 v3 v4) as (? & ? & ? & ?).
  assert (Px : 0 <= px - x0) by lra.
  assert (Px' : 0 <= x0 + w - px) by lra.
  assert (Py : 0 <= py - y0) by lra.
  assert (Py' : 0 <= y0 + h - py) by lra.
  assert (Sa : forall k t t' : Q, 0 <= t -> 0 <= t' ->
             (0 <= k * t /\ 0 <= k * t') \/ (k * t <= 0 /\ k * t' <= 0)).
  { intros k t t' T T'. destruct (Qlt_le_dec k 0) as [K | K].
    - right.
      assert (0 <= (- k) * t) by (apply Qmult_le_0_compat; lra).
      assert (0 <= (- k) * t') by (apply Qmult_le_0_compat; lra).
      split; lra.
    - left. split; now apply Qmult_le_0_compat. }
  subst u1 u2 u3 u4 v1 v2 v3 v4.
  split; split.
  - destruct (Sa a _ _ Px Px') as [[? ?] | [? ?]],
      (Sa c _ _ Py Py') as [[? ?] | [? ?]]; lra.
  - destruct (Sa a _ _ Px Px') as [[? ?] | [? ?]],
      (Sa c _ _ Py Py') as [[? ?] | [? ?]]; lra.
  - destruct (Sa b _ _ Px Px') as [[? ?] | [? ?]],
      (Sa d _ _ Py Py') as [[? ?] | [? ?]]; lra.
  - destruct (Sa b _ _ Px Px') as [[? ?] | [? ?]],
      (Sa d _ _ Py Py') as [[? ?] | [? ?]]; lra.
Qed.

(** X10. In exact arithmetic, on the general path the target contains the
    image of every point that the source contains: if
    [source.contain(px, py)] holds before the call then the target contains
    the transformed point afterwards, also when target and source are the
    same object. *)
Theorem applyTransform_general_bounds_image (target source : loc)
    (m : matrix.MatrixArray) (st : State) (px py : Q) :
  no_rotation m = false ->
  contain source px py (heap st) = true ->
  let st' := applyTransform_static target source (Some m) st in
  let p' := Point.transform (Point.mk px py) m in
  contain target (Point.x p') (Point.y p') (heap st') = true.
Proof.
  intros G C st' p'. subst st' p'.
  apply contain_in_rect in C. apply contain_in_rect.
  unfold applyTransform_static.
  rewrite G, applyTransform_general_target.
  now apply corners_box_contains_image.
Qed.

Lemma applyTransform_general_bounds_image_witness :
  let st := with_new 0%nat 0 0 10 20 example_state in
  no_rotation quarter_turn = false /\
  contain 0%nat 3 4 (heap st) = true /\
  let st' := applyTransform 0%nat (Some quarter_turn) st in
  let p' := Point.transform (Point.mk 3 4) quarter_turn in
  contain 0%nat (Point.x p') (Point.y p') (heap st') = true.
Proof.
  intros st.
  assert (G : no_rotation quarter_turn = false) by reflexivity.
  assert (C : contain 0%nat 3 4 (heap st) = true) by reflexivity.
  split; [exact G | split; [exact C |]].
  exact (applyTransform_general_bounds_image 0%nat 0%nat quarter_turn st 3 4
           G C).
Defined.

(** X11. For a scale-and-translate matrix [[sx, 0, 0, sy, tx, ty]] with
    [sx >= 0] and [sy >= 0] and a source with non-negative width and
    height, the static [applyTransform] leaves in the target the box of the
    four transformed corners, so the target contains the image of every
    point of the source. *)
Theorem applyTransform_scale_translate_box (target source : loc)
    (sx sy tx ty : Q) (st : State) :
  0 <= sx -> 0 <= sy -> invariant (heap st source) ->
  let m := matrix.mk sx 0 0 sy tx ty in
  let target' :=
    heap (applyTransform_static target source (Some m) st) target in
  same target' (corners_box (heap st source) m) /\
  (forall px py : Q,
      in_rect (heap st source) px py ->
      holds target' (Point.transform (Point.mk px py) m)).
Proof.
  intros Sx Sy I m target'.
  assert (E : same target' (corners_box (heap st source) m)).
  { subst target' m. unfold applyTransform_static.
    replace (no_rotation (matrix.mk sx 0 0 sy tx ty)) with true
      by reflexivity.
    rewrite <- applyTransform_general_target with (target := target).
    now apply applyTransform_paths_agree. }
  split; [exact E |].
  intros px py P.
  pose proof (corners_box_contains_image _ m _ _ P) as [[? ?] [? ?]].
  destruct E as (Ex & Ey & Ew & Eh).
  unfold holds, in_rect. rewrite Ex, Ey, Ew, Eh. repeat split; assumption.
Qed.

Lemma applyTransform_scale_translate_box_witness :
  let st := with_new 0%nat 0 0 10 20 example_state in
  let m := matrix.mk 2 0 0 3 1 1 in
  0 <= 2 /\ 0 <= 3 /\ invariant (heap st 0%nat) /\
  same (heap (applyTransform_static 1%nat 0%nat (Some m) st) 1%nat)
       (corners_box (heap st 0%nat) m).
Proof.
  intros st m.
  assert (Sx : 0 <= 2) by discriminate.
  assert (Sy : 0 <= 3) by discriminate.
  assert (I : invariant (heap st 0%nat)) by (split; vm_compute; discriminate).
  repeat (split; [assumption |]).
  exact (proj1 (applyTransform_scale_translate_box 1%nat 0%nat 2 3 1 1 st
                  Sx Sy I)).
Defined.

(** X12. The test for the fast path bounds [m[1]] and [m[2]] from above
    only: when [m[1]] is negative and [m[2] < 1e-5] the fast path runs and
    ignores [m[1]].  In exact arithmetic, if moreover [source.x > 0], the
    target does not contain the transformed top-left corner of the
    source. *)
Theorem applyTransform_negative_shear_loses_corner (target source : loc)
    (m : matrix.MatrixArray) (st : State) :
  matrix.m1 m < 0 -> matrix.m2 m < eps -> 0 < x (heap st source) ->
  let st' := applyTransform_static target source (Some m) st in
  let p' := Point.transform (corner_lt (heap st source)) m in
  no_rotation m = true /\
  contain target (Point.x p') (Point.y p') (heap st') = false.
Proof.
  intros M1 M2 X st' p'.
  assert (F : no_rotation m = true).
  { unfold no_rotation. apply andb_true_iff.
    split; apply ltb_lt; [| assumption].
    apply Qlt_trans with 0; [assumption | reflexivity]. }
  split; [exact F |].
  apply not_true_is_false. intros C. apply contain_in_rect in C.
  subst st' p'. unfold applyTransform_static in C.
  rewrite F, applyTransform_fast_target in C.
  destruct C as [_ [C _]]. unfold corner_lt, Point.transform in C.
  cbn [x y width height Point.x Point.y] in C.
  assert (0 < (- matrix.m1 m) * x (heap st source))
    by (apply Qmult_lt_0_compat; lra).
  lra.
Qed.

Lemma applyTransform_negative_shear_loses_corner_witness :
  let st := with_new 0%nat 5 5 10 10 example_state in
  let m := matrix.mk 1 (-1) 0 1 0 0 in
  matrix.m1 m < 0 /\ matrix.m2 m < eps /\ 0 < x (heap st 0%nat) /\
  let st' := applyTransform_static 1%nat 0%nat (Some m) st in
  let p' := Point.transform (corner_lt (heap st 0%nat)) m in
  contain 1%nat (Point.x p') (Point.y p') (heap st') = false.
Proof.
  intros st m.
  assert (M1 : matrix.m1 m < 0) by reflexivity.
  assert (M2 : matrix.m2 m < eps) by reflexivity.
  assert (X : 0 < x (heap st 0%nat)) by reflexivity.
  repeat (split; [assumption |]).
  exact (proj2 (applyTransform_negative_shear_loses_corner 1%nat 0%nat m st
                  M1 M2 X)).
Defined.

(** * Further properties of intersect *)

Lemma intersect_returned_arg (this : loc) (b : RectArg)
    (mtv : option Point.Point) (st : State) :
  returned (intersect this (Some b) mtv st) =
  negb (ltb (x (heap st this) + width (heap st this)) (x (arg_rect st b))
        || ltb (x (arg_rect st b) + width (arg_rect st b)) (x (heap st this))
        || ltb (y (heap st this) + height (heap st this)) (y (arg_rect st b))
        || ltb (y (arg_rect st b) + height (arg_rect st b))
               (y (heap st this))).
Proof. apply intersect_returned. Qed.

(** Two rectangles with non-negative extents are separated on neither axis
    exactly when they have a point in common. *)
Lemma not_separated_common_point (a b : BoundingRect) :
  invariant a -> invariant b ->
  negb (ltb (x a + width a) (x b) || ltb (x b + width b) (x a)
        || ltb (y a + height a) (y b) || ltb (y b + height b) (y a)) = true
  <-> exists px py : Q, in_rect a px py /\ in_rect b px py.
Proof.
  intros [Wa Ha] [Wb Hb].
  rewrite negb_true_iff, !orb_false_iff, !ltb_ge. unfold in_rect.
  split.
  - intros [[[X0 X1] Y0] Y1].
    exists (mathMax (x a) (x b)), (mathMax (y a) (y b)).
    destruct (mathMax_spec (x a) (x b)) as [[? ->] | [? ->]];
      destruct (mathMax_spec (y a) (y b)) as [[? ->] | [? ->]];
      repeat split; lra.
  - intros (px & py & [[? ?] [? ?]] & [[? ?] [? ?]]). repeat split; lra.
Qed.

(** X13. The boolean that [intersect] returns is symmetric in the two
    rectangles, with or without an [mtv] argument on either side. *)
Theorem intersect_symmetric (a b : loc) (mtv mtv' : option Point.Point)
    (st : State) :
  returned (intersect a (Some (Instance b)) mtv st) =
  returned (intersect b (Some (Instance a)) mtv' st).
Proof.
  rewrite !intersect_returned_arg. cbn [arg_rect].
  destruct (ltb (x (heap st a) + width (heap st a)) (x (heap st b))),
    (ltb (x (heap st b) + width (heap st b)) (x (heap st a))),
    (ltb (y (heap st a) + height (heap st a)) (y (heap st b))),
    (ltb (y (heap st b) + height (heap st b)) (y (heap st a)));
    reflexivity.
Qed.

(** X14. For two instances with non-negative width and height,
    [a.intersect(b)] returns true exactly when some point is contained in
    both, touching edges and corners included. *)
Theorem intersect_iff_common_point (a b : loc) (mtv : option Point.Point)
    (st : State) :
  invariant (heap st a) -> invariant (heap st b) ->
  (returned (intersect a (Some (Instance b)) mtv st) = true <->
   exists px py : Q,
     contain a px py (heap st) = true /\ contain b px py (heap st) = true).
Proof.
  intros Ia Ib. rewrite intersect_returned_arg. cbn [arg_rect].
  rewrite (not_separated_common_point _ _ Ia Ib).
  split; intros (px & py & Ca & Cb); exists px, py;
    split; now apply contain_in_rect.
Qed.

Lemma intersect_iff_common_point_witness :
  let st := with_new 1%nat 10 10 5 5 (with_new 0%nat 0 0 10 10 example_state) in
  invariant (heap st 0%nat) /\ invariant (heap st 1%nat) /\
  (returned (intersect 0%nat (Some (Instance 1%nat)) None st) = true <->
   exists px py : Q,
     contain 0%nat px py (heap st) = true /\
     contain 1%nat px py (heap st) = true).
Proof.
  intros st.
  assert (Ia : invariant (heap st 0%nat)) by (split; vm_compute; discriminate).
  assert (Ib : invariant (heap st 1%nat)) by (split; vm_compute; discriminate).
  repeat (split; [assumption |]).
  exact (intersect_iff_common_point 0%nat 1%nat None st Ia Ib).
Defined.

(** X15. A plain object passed to [intersect] is normalized first.  In
    exact arithmetic, for a rectangle [a] with non-negative width and
    height and any plain [r], whatever the signs of its width and height,
    [a.intersect(r)] returns true exactly when [a] has a point in common
    with the box spanned by [(r.x, r.y)] and
    [(r.x + r.width, r.y + r.height)]. *)
Theorem intersect_plain_box (a : loc) (r : RectLike)
    (mtv : option Point.Point) (st : State) :
  invariant (heap st a) ->
  (returned (intersect a (Some (Plain r)) mtv st) = true <->
   exists px py : Q,
     contain a px py (heap st) = true /\
     in_box (x r) (y r) (width r) (height r) px py).
Proof.
  intros Ia. rewrite intersect_returned_arg. cbn [arg_rect].
  unfold create.
  rewrite (not_separated_common_point _ _ Ia (constructor_invariant _ _ _ _)).
  split; intros (px & py & Ca & Cb); exists px, py; split;
    solve [now apply contain_in_rect | now apply constructor_same_points].
Qed.

Lemma intersect_plain_box_witness :
  let st := with_new 0%nat 0 0 10 10 example_state in
  let r := mk 15 15 (-6) (-6) in
  invariant (heap st 0%nat) /\
  (returned (intersect 0%nat (Some (Plain r)) None st) = true <->
   exists px py : Q,
     contain 0%nat px py (heap st) = true /\
     in_box (x r) (y r) (width r) (height r) px py).
Proof.
  intros st r.
  assert (Ia : invariant (heap st 0%nat)) by (split; vm_compute; discriminate).
  split; [exact Ia |].
  exact (intersect_plain_box 0%nat r None st Ia).
Defined.

(** X16. For overlapping rectangles the vector written into [mtv] is
    horizontal: [mtv.y] is 0 and [mtv.x] is the smaller of the two overlaps
    on the x axis, positive when the overlap of [a]'s right edge over [b]'s
    left edge is the strictly smaller one and negative otherwise.  In exact
    arithmetic, moving [b] by it brings [b]'s left edge onto [a]'s right
    edge, or [b]'s right edge onto [a]'s left edge. *)
Theorem intersect_overlap_pushes_out_on_x (this : loc) (b : RectArg)
    (p : Point.Point) (st : State) :
  let a := heap st this in
  let b' := arg_rect st b in
  let over_right := x a + width a - x b' in
  let over_left := x b' + width b' - x a in
  returned (intersect this (Some b) (Some p) st) = true ->
  exists q : Point.Point,
    mtv_after (intersect this (Some b) (Some p) st) = Some q /\
    Point.y q = 0 /\
    ((over_right < over_left /\ Point.x q == over_right /\
      x b' + Point.x q == x a + width a) \/
     (over_left <= over_right /\ Point.x q == - over_left /\
      x b' + width b' + Point.x q == x a)).
Proof.
  intros a b' over_right over_left R.
  pose proof R as R'. rewrite intersect_returned_arg in R'.
  rewrite negb_true_iff, !orb_false_iff, !ltb_ge in R'.
  destruct R' as [[[X0 X1] _] _]. fold a b' in X0, X1.
  assert (Er : Qabs over_right == over_right)
    by (apply Qabs_pos; unfold over_right; lra).
  assert (El : Qabs over_left == over_left)
    by (apply Qabs_pos; unfold over_left; lra).
  rewrite (intersect_overlap_on_x_axis this b p st R).
  change (match b with Instance l => heap st l | Plain r => create r end)
    with b'.
  change (x (heap st this) + width (heap st this) - x b') with over_right.
  change (x b' + width b' - x (heap st this)) with over_left.
  destruct (ltb (Qabs over_right) (Qabs over_left)) eqn:L; num_prop L;
    rewrite Er, El in L.
  - exists (Point.mk (Qabs over_right) 0). cbn [Point.x Point.y].
    split; [reflexivity | split; [reflexivity | left]].
    rewrite Er. split; [assumption | split; [reflexivity |]].
    unfold over_right. ring.
  - exists (Point.mk (- Qabs over_left) 0). cbn [Point.x Point.y].
    split; [reflexivity | split; [reflexivity | right]].
    rewrite El. split; [assumption | split; [reflexivity |]].
    unfold over_left. ring.
Qed.

Lemma intersect_overlap_pushes_out_on_x_witness :
  let st := with_new 1%nat 5 0 10 10 (with_new 0%nat 0 0 10 10 example_state) in
  returned (intersect 0%nat (Some (Instance 1%nat)) (Some (Point.mk 0 0)) st)
  = true /\
  exists q : Point.Point,
    mtv_after (intersect 0%nat (Some (Instance 1%nat)) (Some (Point.mk 0 0)) st)
    = Some q /\
    Point.y q = 0 /\
    ((10 - 5 < 15 - 0 /\ Point.x q == 10 - 5 /\ 5 + Point.x q == 10) \/
     (15 - 0 <= 10 - 5 /\ Point.x q == - (15 - 0) /\ 15 + Point.x q == 0)).
Proof.
  intros st.
  assert (R : returned (intersect 0%nat (Some (Instance 1%nat))
                          (Some (Point.mk 0 0)) st) = true) by reflexivity.
  split; [exact R |].
  exact (intersect_overlap_pushes_out_on_x 0%nat (Instance 1%nat)
           (Point.mk 0 0) st R).
Defined.

(** X17. [intersect] never changes a rectangle nor the scratch corners of
    [applyTransform], and without an [mtv] argument it changes nothing at
    all: [minTv] and [maxTv] are written only when [mtv] is supplied. *)
Theorem intersect_frame :
  (forall (this : loc) (b : option RectArg) (mtv : option Point.Point)
          (st : State),
      let st' := state_after (intersect this b mtv st) in
      heap st' = heap st /\
      lt st' = lt st /\ rb st' = rb st /\ lb st' = lb st /\ rt st' = rt st) /\
  (forall (this : loc) (b : option RectArg) (st : State),
      state_after (intersect this b None st) = st).
Proof.
  split.
  - intros this b mtv st st'. subst st'. unfold intersect, state_after.
    destruct b as [b |], mtv as [p |]; cbn [snd heap lt rb lb rt];
      repeat split; reflexivity.
  - intros this b st. unfold intersect, state_after.
    destruct b as [b |]; reflexivity.
Qed.

(** On one axis, for two intervals [[a0, a1]] and [[b0, b1]] that are
    apart, the smaller of the two distances that [intersect] computes is
    the gap between them. *)
Lemma apart_gap (a0 a1 b0 b1 : Q) :
  a0 <= a1 -> b0 <= b1 ->
  ltb a1 b0 || ltb b1 a0 = true ->
  mathMin (Qabs (a1 - b0)) (Qabs (b1 - a0)) == mathMax (b0 - a1) (a0 - b1) /\
  0 < mathMax (b0 - a1) (a0 - b1).
Proof.
  intros A B S. apply orb_true_iff in S. unfold mathMin, mathMax.
  destruct S as [S | S]; apply ltb_lt in S.
  - assert (E0 : Qabs (a1 - b0) == - (a1 - b0)) by (apply Qabs_neg; lra).
    assert (E1 : Qabs (b1 - a0) == b1 - a0) by (apply Qabs_pos; lra).
    rewrite E0, E1.
    destruct (Q.min_spec (- (a1 - b0)) (b1 - a0)) as [[? ->] | [? ->]];
      destruct (Q.max_spec (b0 - a1) (a0 - b1)) as [[? ->] | [? ->]];
      split; lra.
  - assert (E0 : Qabs (a1 - b0) == a1 - b0) by (apply Qabs_pos; lra).
    assert (E1 : Qabs (b1 - a0) == - (b1 - a0)) by (apply Qabs_neg; lra).
    rewrite E0, E1.
    destruct (Q.min_spec (a1 - b0) (- (b1 - a0))) as [[? ->] | [? ->]];
      destruct (Q.max_spec (b0 - a1) (a0 - b1)) as [[? ->] | [? ->]];
      split; lra.
Qed.

Lemma together_gap (a0 a1 b0 b1 : Q) :
  ltb a1 b0 || ltb b1 a0 = false -> mathMax (b0 - a1) (a0 - b1) <= 0.
Proof.
  intros S. apply orb_false_iff in S. destruct S as [S S'].
  apply ltb_ge in S, S'. unfold mathMax.
  destruct (Q.max_spec (b0 - a1) (a0 - b1)) as [[? ->] | [? ->]]; lra.
Qed.

(** The length of the vector that [intersect] stores for an axis on which
    the rectangles are apart. *)
Lemma apart_vector_length (d0 d1 : Q) :
  0 <= d0 -> 0 <= d1 ->
  Qabs (if ltb d0 d1 then - d0 else d1) == mathMin d0 d1.
Proof.
  intros D0 D1. unfold mathMin.
  destruct (ltb d0 d1) eqn:L; num_prop L.
  - rewrite Qabs_opp, Qabs_pos by assumption.
    destruct (Q.min_spec d0 d1) as [[? ->] | [? ->]]; lra.
  - rewrite Qabs_pos by assumption.
    destruct (Q.min_spec d0 d1) as [[? ->] | [? ->]]; lra.
Qed.

(** X18. For two rectangles with non-negative width and height that do not
    overlap, [intersect] returns false and writes into [mtv] a vector along
    one axis whose length is the gap between the rectangles on that axis:
    the axis with the larger gap, the x axis when the gaps are equal. *)
Theorem intersect_apart_reports_larger_gap (this : loc) (b : RectArg)
    (p : Point.Point) (st : State) :
  let a := heap st this in
  let b' := arg_rect st b in
  invariant a -> invariant b' ->
  returned (intersect this (Some b) (Some p) st) = false ->
  exists q : Point.Point,
    mtv_after (intersect this (Some b) (Some p) st) = Some q /\
    ((Point.y q = 0 /\ Qabs (Point.x q) == gap_x a b' /\
      gap_y a b' <= gap_x a b' /\ 0 < gap_x a b') \/
     (Point.x q = 0 /\ Qabs (Point.y q) == gap_y a b' /\
      gap_x a b' < gap_y a b' /\ 0 < gap_y a b')).
Proof.
  intros a b' [Wa Ha] [Wb Hb] R.
  rewrite intersect_returned_arg in R. fold a b' in R.
  unfold intersect, mtv_after.
  change (match b with Instance l => heap st l | Plain r => create r end)
    with b'.
  fold a. cbn [fst snd]. rewrite R.
  rewrite negb_false_iff, <- !orb_assoc in R.
  unfold intersect_x_axis, intersect_y_axis, gap_x, gap_y.
  cbn [dMin dMax tv_min tv_max minTv maxTv].
  assert (Xa : x a <= x a + width a) by lra.
  assert (Xb : x b' <= x b' + width b') by lra.
  assert (Ya : y a <= y a + height a) by lra.
  assert (Yb : y b' <= y b' + height b') by lra.
  pose proof (apart_gap _ _ _ _ Xa Xb) as Gx.
  pose proof (together_gap (x a) (x a + width a) (x b') (x b' + width b'))
    as Tx.
  pose proof (apart_gap _ _ _ _ Ya Yb) as Gy.
  pose proof (together_gap (y a) (y a + height a) (y b') (y b' + height b'))
    as Ty.
  pose proof (apart_vector_length _ _
                (Qabs_nonneg (x a + width a - x b'))
                (Qabs_nonneg (x b' + width b' - x a))) as Vx.
  pose proof (apart_vector_length _ _
                (Qabs_nonneg (y a + height a - y b'))
                (Qabs_nonneg (y b' + height b' - y a))) as Vy.
  set (d0 := Qabs (x a + width a - x b')) in *.
  set (d1 := Qabs (x b' + width b' - x a)) in *.
  set (d2 := Qabs (y a + height a - y b')) in *.
  set (d3 := Qabs (y b' + height b' - y a)) in *.
  set (gx := mathMax (x b' - (x a + width a)) (x a - (x b' + width b'))) in *.
  set (gy := mathMax (y b' - (y a + height a)) (y a - (y b' + height b')))
    in *.
  destruct (ltb (x a + width a) (x b') || ltb (x b' + width b') (x a)) eqn:Sx;
    destruct (ltb (y a + height a) (y b') || ltb (y b' + height b') (y a))
      eqn:Sy.
  - destruct (Gx eq_refl) as [Ex Px]. destruct (Gy eq_refl) as [Ey Py].
    assert (G0 : gtb (mathMin d0 d1) 0 = true) by (apply ltb_lt; lra).
    rewrite G0. cbn [dMin dMax tv_min tv_max].
    destruct (gtb (mathMin d2 d3) (mathMin d0 d1)) eqn:G1;
      unfold gtb in G1; num_prop G1; cbn [tv_max].
    + destruct (ltb d2 d3); eexists; (split; [reflexivity |]);
        cbn [Point.copy Point.set Point.x Point.y]; right;
        (split; [reflexivity | split; [| split]]); lra.
    + destruct (ltb d0 d1); eexists; (split; [reflexivity |]);
        cbn [Point.copy Point.set Point.x Point.y]; left;
        (split; [reflexivity | split; [| split]]); lra.
  - destruct (Gx eq_refl) as [Ex Px]. specialize (Ty eq_refl).
    assert (G0 : gtb (mathMin d0 d1) 0 = true) by (apply ltb_lt; lra).
    rewrite G0. cbn [ltb_ext dMin dMax tv_min tv_max].
    destruct (ltb d0 d1); eexists; (split; [reflexivity |]);
      cbn [Point.copy Point.set Point.x Point.y]; left;
      (split; [reflexivity | split; [| split]]); lra.
  - specialize (Tx eq_refl). destruct (Gy eq_refl) as [Ey Py].
    cbn [ltb_ext dMin dMax tv_min tv_max].
    assert (G0 : gtb (mathMin d2 d3) 0 = true) by (apply ltb_lt; lra).
    rewrite G0. cbn [tv_max].
    destruct (ltb d2 d3); eexists; (split; [reflexivity |]);
      cbn [Point.copy Point.set Point.x Point.y]; right;
      (split; [reflexivity | split; [| split]]); lra.
  - apply orb_false_iff in Sx. destruct Sx as [S0 S1].
    rewrite S0, S1 in R. discriminate R.
Qed.

Lemma intersect_apart_reports_larger_gap_witness :
  let st :=
    with_new 1%nat 20 0 10 10 (with_new 0%nat 0 0 10 10 example_state) in
  let a := heap st 0%nat in
  let b' := arg_rect st (Instance 1%nat) in
  invariant a /\ invariant b' /\
  returned (intersect 0%nat (Some (Instance 1%nat)) (Some (Point.mk 0 0)) st)
  = false /\
  exists q : Point.Point,
    mtv_after (intersect 0%nat (Some (Instance 1%nat)) (Some (Point.mk 0 0)) st)
    = Some q /\
    ((Point.y q = 0 /\ Qabs (Point.x q) == gap_x a b' /\
      gap_y a b' <= gap_x a b' /\ 0 < gap_x a b') \/
     (Point.x q = 0 /\ Qabs (Point.y q) == gap_y a b' /\
      gap_x a b' < gap_y a b' /\ 0 < gap_y a b')).
Proof.
  intros st a b'.
  assert (Ia : invariant a) by (split; vm_compute; discriminate).
  assert (Ib : invariant b') by (split; vm_compute; discriminate).
  assert (R : returned (intersect 0%nat (Some (Instance 1%nat))
                          (Some (Point.mk 0 0)) st) = false) by reflexivity.
  repeat (split; [assumption |]).
  exact (intersect_apart_reports_larger_gap 0%nat (Instance 1%nat)
           (Point.mk 0 0) st Ia Ib R).
Defined.

(** * Further properties of calculateTransform, and of union with intersect *)

Lemma scale_interval (s a0 w b0 bw p q : Q) :
  0 < s -> s * w == bw ->
  (a0 <= p <= a0 + w <-> b0 <= s * p + 0 * q + (b0 - a0 * s) <= b0 + bw).
Proof.
  intros S W.
  rewrite <- (Qmult_le_l a0 p s S), <- (Qmult_le_l p (a0 + w) s S).
  split; intros [? ?]; split; lra.
Qed.

Lemma scale_factor (w bw : Q) :
  0 < w -> 0 < bw -> 0 < bw / w /\ bw / w * w == bw.
Proof.
  intros W B. split.
  - apply Qlt_shift_div_l; lra.
  - field. lra.
Qed.

(** X19. For rectangles [a] and [b] with strictly positive width and
    height, the matrix [a.calculateTransform(b)] maps [a] onto [b]: a point
    is contained in [a] exactly when its image lies in [b]. *)
Theorem calculateTransform_maps_onto (a : loc) (b : RectLike) (h : Store)
    (px py : Q) :
  0 < width (h a) -> 0 < height (h a) -> 0 < width b -> 0 < height b ->
  let p' := Point.transform (Point.mk px py) (calculateTransform a b h) in
  contain a px py h = true <-> holds b p'.
Proof.
  intros Wa Ha Wb Hb p'. subst p'.
  destruct (calculateTransform_matrix a b h) as (E0 & E1 & E2 & E3 & E4 & E5).
  destruct (scale_factor _ _ Wa Wb) as [Sx Ex].
  destruct (scale_factor _ _ Ha Hb) as [Sy Ey].
  rewrite contain_in_rect. unfold holds, in_rect, Point.transform.
  cbn [Point.x Point.y]. rewrite E0, E1, E2, E3, E4, E5.
  rewrite (scale_interval _ (x (h a)) _ (x b) _ px py Sx Ex).
  rewrite (scale_interval _ (y (h a)) _ (y b) _ py px Sy Ey).
  split; intros [[? ?] [? ?]]; repeat split; lra.
Qed.

Lemma calculateTransform_maps_onto_witness :
  let h := heap (with_new 0%nat 0 0 10 10 example_state) in
  let b := mk 3 4 5 6 in
  0 < width (h 0%nat) /\ 0 < height (h 0%nat) /\
  0 < width b /\ 0 < height b /\
  (contain 0%nat 10 5 h = true <->
   holds b (Point.transform (Point.mk 10 5) (calculateTransform 0%nat b h))).
Proof.
  intros h b.
  assert (Wa : 0 < width (h 0%nat)) by reflexivity.
  assert (Ha : 0 < height (h 0%nat)) by reflexivity.
  assert (Wb : 0 < width b) by reflexivity.
  assert (Hb : 0 < height b) by reflexivity.
  repeat (split; [assumption |]).
  exact (calculateTransform_maps_onto 0%nat b h 10 5 Wa Ha Wb Hb).
Defined.

(** X20. In exact arithmetic, after [a.union(b)], where [b] has
    non-negative width and height, [a.intersect(b)] returns true, also when
    [a] and [b] are the same object. *)
Theorem union_then_intersect (a b : loc) (mtv : option Point.Point)
    (st : State) :
  invariant (heap st b) ->
  let st' := with_heap (union a b (heap st)) st in
  returned (intersect a (Some (Instance b)) mtv st') = true.
Proof.
  intros I st'. subst st'. rewrite intersect_returned_arg.
  unfold with_heap. cbn [arg_rect heap].
  rewrite negb_true_iff, !orb_false_iff, !ltb_ge.
  destruct (Nat.eq_dec b a) as [-> | N].
  - destruct (union_invariant a a (heap st) I) as [W H].
    repeat split; lra.
  - rewrite (union_frame a b b (heap st) N), union_this.
    cbn [x y width height]. destruct I as [W H].
    pose proof (Q.le_min_l (x (heap st b)) (x (heap st a))).
    pose proof (Q.le_min_l (y (heap st b)) (y (heap st a))).
    pose proof (Q.le_max_l (x (heap st b) + width (heap st b))
                           (x (heap st a) + width (heap st a))).
    pose proof (Q.le_max_l (y (heap st b) + height (heap st b))
                           (y (heap st a) + height (heap st a))).
    unfold mathMin, mathMax. repeat split; lra.
Qed.

Lemma union_then_intersect_witness :
  let st :=
    with_new 1%nat 20 30 1 1 (with_new 0%nat 0 0 10 10 example_state) in
  invariant (heap st 1%nat) /\
  returned (intersect 0%nat (Some (Instance 1%nat)) None
              (with_heap (union 0%nat 1%nat (heap st)) st)) = true.
Proof.
  intros st.
  assert (I : invariant (heap st 1%nat)) by (split; vm_compute; discriminate).
  split; [exact I |].
  exact (union_then_intersect 0%nat 1%nat None st I).
Defined.
